(** * EstateHub server: a shallow embedding of [index.js]

    The server is one Express application over five MongoDB collections.
    Every handler is a short sequence of driver calls inside a
    [try]/[catch].  The embedding keeps that shape:

    - a document is a finite map from field names to values, the [_id]
      field included (a field that is absent reads as [undefined] in the
      handlers);
    - a collection is the list of its documents in natural order;
    - a handler is a computation in a state-and-exception monad over the
      five collections; [try]/[catch] is [try_catch], and state written
      before an exception stays written, as the two independent writes of
      the accept flow require;
    - the driver calls ([findOne], [insertOne], [updateOne],
      [updateMany], [deleteOne], the [ObjectId] constructor) are modelled
      on lists of documents with the counts the handlers inspect. *)

From Stdlib Require Import ZArith NArith QArith Qabs String Ascii List Bool Lia.
From Stdlib Require Import PrimFloat SpecFloat FloatOps.
From stdpp Require Import gmap strings list option sorting.

Local Open Scope string_scope.

(** ** Values and documents *)

(** A 12-byte object id, as the number its 24 hexadecimal digits spell. *)
Definition oid := N.

Inductive value :=
  | VNull
  | VBool (b : bool)
  | VNum (n : Z)
  | VStr (s : string)
  | VId (o : oid).

#[global] Instance value_eq_dec : EqDecision value.
Proof. solve_decision. Defined.

Abbreviation document := (gmap string value).

(** JavaScript truthiness of a property read; [None] is [undefined]. *)
Definition truthy (v : option value) : bool :=
  match v with
  | None => false
  | Some VNull => false
  | Some (VBool b) => b
  | Some (VNum n) => negb (n =? 0)%Z
  | Some (VStr s) => negb (String.eqb s "")
  | Some (VId _) => true
  end.

(** The driver serialises an [undefined] filter or update value as
    [null] (its [ignoreUndefined] option is off by default). *)
Definition bson (v : option value) : value := default VNull v.

(** ** Exceptions *)

Inductive outcome (A : Type) :=
  | Return (a : A)
  | Throw (e : string).
Arguments Return {A} a.
Arguments Throw {A} e.

(** ** The [ObjectId] constructor

    [new ObjectId(id)] on a string accepts 24 hexadecimal digits, in
    either case, and throws on every other string (the rule of the
    current driver; earlier ones also took some 12-character strings). *)

Definition hex_digit (c : ascii) : option N :=
  let n := N_of_ascii c in
  if ((48 <=? n) && (n <=? 57))%N then Some (n - 48)%N
  else if ((97 <=? n) && (n <=? 102))%N then Some (n - 87)%N
  else if ((65 <=? n) && (n <=? 70))%N then Some (n - 55)%N
  else None.

Fixpoint hex_value (acc : N) (s : string) : option N :=
  match s with
  | EmptyString => Some acc
  | String c s' =>
      match hex_digit c with
      | Some d => hex_value (16 * acc + d)%N s'
      | None => None
      end
  end.

Definition ObjectId (id : string) : outcome oid :=
  if Nat.eqb (String.length id) 24 then
    match hex_value 0%N id with
    | Some o => Return o
    | None => Throw "input must be a 24 character hex string"
    end
  else Throw "input must be a 24 character hex string".

(** ** Query and update semantics of the database *)

(** Equality match [{ field: q }]: a [null] query value also matches a
    document that lacks the field. *)
Definition eq_match (q : value) (f : option value) : bool :=
  match q with
  | VNull => bool_decide (f = None ∨ f = Some VNull)
  | _ => bool_decide (f = Some q)
  end.

(** [{ _id: new ObjectId(id) }] *)
Definition by_id (o : oid) (d : document) : bool :=
  eq_match (VId o) (d !! "_id").

(** [{ _id: { $ne: new ObjectId(id) } }] *)
Definition id_ne (o : oid) (d : document) : bool :=
  negb (eq_match (VId o) (d !! "_id")).

Definition findOne (p : document → bool) (c : list document)
  : option document :=
  List.find p c.

Definition find_all (p : document → bool) (c : list document)
  : list document :=
  List.filter p c.

Definition countDocuments (p : document → bool) (c : list document) : nat :=
  length (List.filter p c).

(** [{ $set: upd }] on one document: the named fields are overwritten,
    the others kept.  Field names are top-level names; an empty [upd]
    changes nothing. *)
Definition apply_set (upd d : document) : document := upd ∪ d.

(** [_id] is immutable: a [$set] that names it with another value is
    refused by the server when it reaches a matched document. *)
Definition id_clash (upd d : document) : bool :=
  match upd !! "_id" with
  | Some v => negb (bool_decide (d !! "_id" = Some v))
  | None => false
  end.

Record UpdateResult := {
  matchedCount : nat;
  modifiedCount : nat
}.

Definition changed (upd d : document) : nat :=
  if decide (apply_set upd d = d) then 0 else 1.

(** [updateOne(filter, { $set: upd })]: the first match in natural
    order is rewritten. *)
Fixpoint updateOne (p : document → bool) (upd : document)
    (c : list document) : outcome UpdateResult * list document :=
  match c with
  | [] => (Return {| matchedCount := 0; modifiedCount := 0 |}, [])
  | d :: c' =>
      if p d then
        if id_clash upd d then
          (Throw "would modify the immutable field '_id'", c)
        else
          (Return {| matchedCount := 1; modifiedCount := changed upd d |},
           apply_set upd d :: c')
      else
        let '(r, c'') := updateOne p upd c' in (r, d :: c'')
  end.

(** [updateMany(filter, { $set: upd })]: every match is rewritten, in
    natural order; a refused write stops the command and keeps the writes
    already made. *)
Fixpoint updateMany (p : document → bool) (upd : document)
    (c : list document) : outcome UpdateResult * list document :=
  match c with
  | [] => (Return {| matchedCount := 0; modifiedCount := 0 |}, [])
  | d :: c' =>
      if p d then
        if id_clash upd d then
          (Throw "would modify the immutable field '_id'", c)
        else
          let '(r, c'') := updateMany p upd c' in
          (match r with
           | Return n =>
               Return {| matchedCount := S (matchedCount n);
                         modifiedCount := changed upd d + modifiedCount n |}
           | Throw e => Throw e
           end,
           apply_set upd d :: c'')
      else
        let '(r, c'') := updateMany p upd c' in (r, d :: c'')
  end.

Record DeleteResult := { deletedCount : nat }.

Fixpoint deleteOne (p : document → bool) (c : list document)
  : DeleteResult * list document :=
  match c with
  | [] => ({| deletedCount := 0 |}, [])
  | d :: c' =>
      if p d then ({| deletedCount := 1 |}, c')
      else let '(r, c'') := deleteOne p c' in (r, d :: c'')
  end.

(** An id the collection does not hold yet, for a document inserted
    without one. *)
Definition fresh_oid (c : list document) : oid :=
  N.succ (foldr (λ d m, match d !! "_id" with
                        | Some (VId o) => N.max o m
                        | _ => m
                        end) 0%N c).

Record InsertResult := { insertedId : value }.

(** The [_id] a document brings along: none when the field is absent
    or [null] ([doc._id == null] in the driver). *)
Definition own_id (doc : document) : option value :=
  match doc !! "_id" with
  | Some VNull | None => None
  | Some v => Some v
  end.

(** [insertOne(doc)]: the driver gives the document a new [_id] when it
    brings none, and the unique index on [_id] refuses a second document
    with the same one; otherwise the document is stored as submitted. *)
Definition insertOne (doc : document) (c : list document)
  : outcome InsertResult * list document :=
  match own_id doc with
  | Some v =>
      if existsb (λ d, bool_decide (d !! "_id" = Some v)) c then
        (Throw "E11000 duplicate key error", c)
      else (Return {| insertedId := v |}, (c ++ [doc])%list)
  | None =>
      let v := VId (fresh_oid c) in
      (Return {| insertedId := v |}, (c ++ [<["_id" := v]> doc])%list)
  end.

(** ** The five collections and the handler monad *)

Record store := {
  propertiesCollection : list document;
  usersCollection : list document;
  wishlistCollection : list document;
  reviewsCollection : list document;
  offersCollection : list document
}.

(** [database.collection(name)] *)
Inductive collection := properties | users | wishlists | reviews | offers.

Definition docs (k : collection) (s : store) : list document :=
  match k with
  | properties => propertiesCollection s
  | users => usersCollection s
  | wishlists => wishlistCollection s
  | reviews => reviewsCollection s
  | offers => offersCollection s
  end.

Definition set_docs (k : collection) (c : list document) (s : store)
  : store :=
  match k with
  | properties =>
      {| propertiesCollection := c; usersCollection := usersCollection s;
         wishlistCollection := wishlistCollection s;
         reviewsCollection := reviewsCollection s;
         offersCollection := offersCollection s |}
  | users =>
      {| propertiesCollection := propertiesCollection s; usersCollection := c;
         wishlistCollection := wishlistCollection s;
         reviewsCollection := reviewsCollection s;
         offersCollection := offersCollection s |}
  | wishlists =>
      {| propertiesCollection := propertiesCollection s;
         usersCollection := usersCollection s; wishlistCollection := c;
         reviewsCollection := reviewsCollection s;
         offersCollection := offersCollection s |}
  | reviews =>
      {| propertiesCollection := propertiesCollection s;
         usersCollection := usersCollection s;
         wishlistCollection := wishlistCollection s; reviewsCollection := c;
         offersCollection := offersCollection s |}
  | offers =>
      {| propertiesCollection := propertiesCollection s;
         usersCollection := usersCollection s;
         wishlistCollection := wishlistCollection s;
         reviewsCollection := reviewsCollection s; offersCollection := c |}
  end.

(** A computation reads and writes the store and either returns or
    throws; what it wrote before throwing stays. *)
Definition M (A : Type) : Type := store → outcome A * store.

Definition ret {A} (a : A) : M A := λ s, (Return a, s).
Definition throw {A} (e : string) : M A := λ s, (Throw e, s).

Definition bind {A B} (m : M A) (k : A → M B) : M B :=
  λ s, match m s with
       | (Return a, s') => k a s'
       | (Throw e, s') => (Throw e, s')
       end.

(** [try { m } catch (error) { h error.message }] *)
Definition try_catch {A} (m : M A) (h : string → M A) : M A :=
  λ s, match m s with
       | (Return a, s') => (Return a, s')
       | (Throw e, s') => h e s'
       end.

Notation "'let*' x ':=' m 'in' k" := (bind m (λ x, k))
  (at level 10, x pattern, m at level 100, k at level 200).

Definition lift {A} (o : outcome A) : M A := λ s, (o, s).

Definition on_collection {A} (k : collection)
    (f : list document → outcome A * list document) : M A :=
  λ s, let '(r, c) := f (docs k s) in (r, set_docs k c s).

Definition db_findOne (k : collection) (p : document → bool)
  : M (option document) :=
  λ s, (Return (findOne p (docs k s)), s).

Definition db_insertOne (k : collection) (doc : document) : M InsertResult :=
  on_collection k (insertOne doc).

Definition db_updateOne (k : collection) (p : document → bool)
    (upd : document) : M UpdateResult :=
  on_collection k (updateOne p upd).

Definition db_updateMany (k : collection) (p : document → bool)
    (upd : document) : M UpdateResult :=
  on_collection k (updateMany p upd).

Definition db_deleteOne (k : collection) (p : document → bool)
  : M DeleteResult :=
  on_collection k (λ c, let '(r, c') := deleteOne p c in (Return r, c')).

(** ** Responses *)

Inductive body :=
  | Message (message : string)
  | MessageError (message error : string)
  | SuccessMessage (success : bool) (message : string)
  | MessageResult (message : string) (result : UpdateResult)
  | Updated (result : UpdateResult)
  | Inserted (result : InsertResult)
  | Doc (d : document)
  | Docs (ds : list document)
  | TokenBody (token : string)
  | ClientSecret (clientSecret : string)
  | ErrorBody (error : string).

Record response := { status : nat; sent : body }.

(** [res.send(b)] answers with status 200; [res.status(n).send(b)] with
    status [n]. *)
Definition send (b : body) : response := {| status := 200; sent := b |}.
Definition status_send (n : nat) (b : body) : response :=
  {| status := n; sent := b |}.

Definition BadRequest (r : response) : Prop := status r = 400.
Definition Unauthorized (r : response) : Prop := status r = 401.
Definition Forbidden (r : response) : Prop := status r = 403.
Definition NotFound (r : response) : Prop := status r = 404.
Definition InternalError (r : response) : Prop := status r = 500.
Definition Success (r : response) : Prop := status r = 200 ∨ status r = 201.

(** ** Offer lifecycle *)

(** The [$set] documents of the status transitions. *)
Definition set_status (s : string) : document := {[ "status" := VStr s ]}.

(** [{ propertyId: propertyId, _id: { $ne: new ObjectId(id) } }] *)
Definition sibling_filter (propertyId : option value) (o : oid)
    (d : document) : bool :=
  eq_match (bson propertyId) (d !! "propertyId") && id_ne o d.

(** Reading [.propertyId] of what [findOne] returned: a [TypeError] on
    [null]. *)
Definition read_propertyId (acceptedOffer : option document)
  : M (option value) :=
  match acceptedOffer with
  | Some d => ret (d !! "propertyId")
  | None => throw "Cannot read properties of null (reading 'propertyId')"
  end.

(** [PATCH /offers/accept/:id].  The three [new ObjectId(id)] of the
    source build the same id; it is built once here, where the first of
    them stands.  [reject_siblings filter update] is the call
    [offersCollection.updateMany(filter, { $set: update })] of the
    handler, left open so that the store it runs on can be told. *)
Definition accept_offer_with
    (reject_siblings : (document → bool) → document → M UpdateResult)
    (id : string) : M response :=
  try_catch
    (let* o := lift (ObjectId id) in
     let* acceptedOffer := db_findOne offers (by_id o) in
     let* propertyId := read_propertyId acceptedOffer in
     let* result := db_updateOne offers (by_id o) (set_status "accepted") in
     let* _ := reject_siblings (sibling_filter propertyId o)
                 (set_status "rejected") in
     if Nat.eqb (modifiedCount result) 0 then
       ret (status_send 404 (Message "Offer not found or already updated"))
     else
       ret (send (Message
                    "Offer accepted and other offers rejected successfully")))
    (λ error,
       ret (status_send 500 (MessageError "Failed to accept offer" error))).

Definition accept_offer (id : string) : M response :=
  accept_offer_with (db_updateMany offers) id.

(** [PATCH /offers/reject/:id] *)
Definition reject_offer (id : string) : M response :=
  try_catch
    (let* o := lift (ObjectId id) in
     let* result := db_updateOne offers (by_id o) (set_status "rejected") in
     if Nat.eqb (modifiedCount result) 0 then
       ret (status_send 404 (Message "Offer not found or already updated"))
     else ret (send (Message "Offer rejected successfully")))
    (λ error,
       ret (status_send 500 (MessageError "Failed to reject offer" error))).

(** [PATCH /offers/:id] from its [try] on: [transactionId] is the
    field read from the request body before it, [undefined] when the
    body has none. *)
Definition mark_bought (id : string) (transactionId : option value)
  : M response :=
  try_catch
    (let* o := lift (ObjectId id) in
     let updateDoc : document :=
       <["transactionId" := bson transactionId]> (set_status "bought") in
     let* result := db_updateOne offers (by_id o) updateDoc in
     if Nat.eqb (modifiedCount result) 0 then
       ret (status_send 404 (Message "Offer not found or already updated"))
     else
       ret (send (MessageResult "Offer updated to bought successfully!"
                    result)))
    (λ error,
       ret (status_send 500
              (MessageError "Failed to update offer status" error))).


(** ** Users *)

(** [{ field: v }] with [v] read from a request or a token. *)
Definition by_field (field : string) (v : option value) (d : document)
  : bool :=
  eq_match (bson v) (d !! field).

(** [POST /users]: [user] is the request body. *)
Definition post_users (user : document) : M response :=
  try_catch
    (let* existingUser := db_findOne users (by_field "email" (user !! "email")) in
     match existingUser with
     | Some _ => ret (status_send 400 (Message "User already exists"))
     | None =>
         let* result := db_insertOne users user in
         ret (send (Inserted result))
     end)
    (λ _, ret (status_send 500 (Message "Failed to save user"))).

(** The three role and flag updates share one shape and differ in the
    field they set and in their messages. *)
Definition patch_user (upd : document) (done : string) (id : string)
  : M response :=
  try_catch
    (let* o := lift (ObjectId id) in
     let* result := db_updateOne users (by_id o) upd in
     if Nat.eqb (matchedCount result) 0 then
       ret (status_send 404 (Message "User not found"))
     else ret (send (SuccessMessage true done)))
    (λ _, ret (status_send 500 (Message "Server error"))).

(** [PATCH /users/admin/:id] *)
Definition make_admin : string → M response :=
  patch_user {[ "role" := VStr "admin" ]} "User promoted to admin".

(** [PATCH /users/agent/:id] *)
Definition make_agent : string → M response :=
  patch_user {[ "role" := VStr "agent" ]} "User promoted to agent".

(** [PATCH /users/fraud/:id] *)
Definition mark_fraud : string → M response :=
  patch_user {[ "fraud" := VBool true ]} "User marked as fraud".

(** [DELETE /users/:id].  [deleteUser] is the identity provider's
    deletion call; what it throws is logged and dropped. *)
Definition delete_user (deleteUser : value → outcome unit) (id : string)
  : M response :=
  try_catch
    (let* o := lift (ObjectId id) in
     let* user := db_findOne users (by_id o) in
     match user with
     | None => ret (status_send 404 (Message "User not found"))
     | Some u =>
         let* _ :=
           if truthy (u !! "uid") then
             try_catch (lift (deleteUser (bson (u !! "uid")))) (λ _, ret ())
           else ret () in
         let* result := db_deleteOne users (by_id o) in
         ret (send (SuccessMessage true "User deleted"))
     end)
    (λ _, ret (status_send 500 (Message "Server error"))).

(** ** Properties *)

(** [PUT /properties/:id]: [propertyData] is the request body. *)
Definition put_property (id : string) (propertyData : document)
  : M response :=
  try_catch
    (let* o := lift (ObjectId id) in
     let* result := db_updateOne properties (by_id o) propertyData in
     if Nat.eqb (modifiedCount result) 0 then
       ret (status_send 404 (Message "Property not found or not modified"))
     else ret (status_send 200 (Message "Property updated successfully")))
    (λ _, ret (status_send 500 (Message "Internal server error"))).

(** [DELETE /properties/:id] *)
Definition delete_property (id : string) : M response :=
  try_catch
    (let* o := lift (ObjectId id) in
     let* result := db_deleteOne properties (by_id o) in
     if Nat.eqb (deletedCount result) 0 then
       ret (status_send 404 (Message "Property not found"))
     else ret (status_send 200 (Message "Property deleted successfully")))
    (λ _, ret (status_send 500 (Message "Internal server error"))).

(** [PATCH /properties/verify/:id] *)
Definition verify_property (id : string) : M response :=
  try_catch
    (let* o := lift (ObjectId id) in
     let* result := db_updateOne properties (by_id o) (set_status "verified") in
     ret (send (Updated result)))
    (λ _, ret (status_send 500 (Message "Failed to verify property"))).

(** [PATCH /properties/reject/:id] *)
Definition reject_property (id : string) : M response :=
  try_catch
    (let* o := lift (ObjectId id) in
     let* result := db_updateOne properties (by_id o) (set_status "rejected") in
     ret (send (Updated result)))
    (λ _, ret (status_send 500 (Message "Failed to reject property"))).

(** [PATCH /properties/advertise/:id]: no [try]/[catch]; an exception
    leaves the handler. *)
Definition advertise_property (id : string) : M response :=
  let* o := lift (ObjectId id) in
  let* result := db_updateOne properties (by_id o)
                   {[ "advertise" := VBool true ]} in
  ret (send (Updated result)).

(** ** Wishlist and reviews *)

(** [DELETE /wishlist/:id] *)
Definition delete_wishlist (id : string) : M response :=
  try_catch
    (let* o := lift (ObjectId id) in
     let* result := db_deleteOne wishlists (by_id o) in
     if Nat.ltb 0 (deletedCount result) then
       ret (status_send 200 (Message "Wishlist item deleted successfully"))
     else ret (status_send 404 (Message "Wishlist item not found")))
    (λ _, ret (status_send 500 (Message "Internal server error"))).

(** [DELETE /reviews/:id]: no [try]/[catch]; an exception leaves the
    handler and no response is sent. *)
Definition delete_review (id : string) : M response :=
  let* o := lift (ObjectId id) in
  let* result := db_deleteOne reviews (by_id o) in
  if Nat.ltb 0 (deletedCount result) then
    ret (send (SuccessMessage true "Review deleted"))
  else ret (status_send 404 (SuccessMessage false "Review not found")).

(** ** Authorization guards *)

(** A middleware either answers the request or calls [next()], handing
    on what it attached to the request. *)
Inductive middleware (A : Type) :=
  | Respond (r : response)
  | Next (a : A).
Arguments Respond {A} r.
Arguments Next {A} a.

(** [user?.role] *)
Definition role_of (user : option document) : option value :=
  user ≫= (λ u, u !! "role").

(** The two guards differ in the role they require and in their
    message; [decoded] is [req.decoded], the claims [verifyToken]
    attached. *)
Definition verifyRole (required : string) (message : string)
    (decoded : document) (s : store) : middleware unit :=
  let email := decoded !! "email" in
  let user := findOne (by_field "email" email) (usersCollection s) in
  if bool_decide (role_of user ≠ Some (VStr required)) then
    Respond (status_send 403 (Message message))
  else Next ().

Definition verifyAdmin : document → store → middleware unit :=
  verifyRole "admin" "forbidden: admin only".

Definition verifyAgent : document → store → middleware unit :=
  verifyRole "agent" "forbidden: agent only".

(** ** The delete routes *)

Inductive delete_endpoint :=
  | DeleteProperty   (* DELETE /properties/:id *)
  | DeleteUser       (* DELETE /users/:id *)
  | DeleteWishlist   (* DELETE /wishlist/:id *)
  | DeleteReview.    (* DELETE /reviews/:id *)

#[global] Instance delete_endpoint_eq_dec : EqDecision delete_endpoint.
Proof. solve_decision. Defined.

Definition delete_handler (deleteUser : value → outcome unit)
    (ep : delete_endpoint) : string → M response :=
  match ep with
  | DeleteProperty => delete_property
  | DeleteUser => delete_user deleteUser
  | DeleteWishlist => delete_wishlist
  | DeleteReview => delete_review
  end.

(** The collection each of them deletes from. *)
Definition delete_target (ep : delete_endpoint) : collection :=
  match ep with
  | DeleteProperty => properties
  | DeleteUser => users
  | DeleteWishlist => wishlists
  | DeleteReview => reviews
  end.

(** ** Token service *)

(** The token library, as far as the server relies on it: a keyed
    signature over the claims and the compact serialisation of claims
    and signature into the string that travels in the header. *)
Class JsonWebToken := {
  hmac : string → document → string;
  jwt_encode : document * string → string;
  jwt_decode : string → option (document * string)
}.

Fixpoint mentions (c : ascii) (s : string) : bool :=
  match s with
  | EmptyString => false
  | String c' s' => Ascii.eqb c' c || mentions c s'
  end.

(** A serialisation is lossless and yields a non-empty string without
    blanks. *)
Class JsonWebTokenLaws `{JsonWebToken} : Prop := {
  jwt_decode_encode : ∀ t, jwt_decode (jwt_encode t) = Some t;
  jwt_encode_nonempty : ∀ t, jwt_encode t ≠ "";
  jwt_encode_no_space : ∀ t, mentions " " (jwt_encode t) = false
}.

(** An object literal: a property whose value is [undefined] is left
    out when the object is serialised. *)
Definition object_of (fields : list (string * option value)) : document :=
  foldr (λ '(k, v) d, match v with Some x => <[k := x]> d | None => d end)
    ∅ fields.

(** Thirty days, in seconds. *)
Definition expiresIn : Z := 30 * 24 * 60 * 60.

(** [jwt.sign(payload, secret, { expiresIn: "30d" })] at clock [now]
    (seconds): the claims carry the issue time and the expiry.  The
    secret is [process.env.JWT_SECRET], the empty string standing for a
    variable that is empty or not set: without a secret the library
    throws. *)
Definition jwt_sign `{JsonWebToken} (payload : document) (secret : string)
    (now : Z) : outcome string :=
  if String.eqb secret "" then Throw "secretOrPrivateKey must have a value"
  else
    let claims :=
      <["exp" := VNum (now + expiresIn)]> (<["iat" := VNum now]> payload) in
    Return (jwt_encode (claims, hmac secret claims)).

(** [jwt.verify(token, secret, callback)] at clock [now]: the token
    must be present, well formed and signed with [secret], which must
    not be empty, and the clock must not have reached its expiry. *)
Definition jwt_verify `{JsonWebToken} (token : option string)
    (secret : string) (now : Z) : outcome document :=
  match token with
  | None => Throw "jwt must be provided"
  | Some t =>
      if String.eqb t "" then Throw "jwt must be provided"
      else
        match jwt_decode t with
        | None => Throw "jwt malformed"
        | Some (claims, signature) =>
            if String.eqb secret "" then
              Throw "secret or public key must be provided"
            else if negb (String.eqb signature (hmac secret claims)) then
              Throw "invalid signature"
            else
              match claims !! "exp" with
              | None => Return claims
              | Some (VNum exp) =>
                  if (exp <=? now)%Z then Throw "jwt expired"
                  else Return claims
              | Some _ => Throw "invalid exp value"
              end
        end
  end.

(** [s.split(sep)] for a one-character separator. *)
Fixpoint split (sep : ascii) (s : string) : list string :=
  match s with
  | EmptyString => [""]
  | String c s' =>
      if Ascii.eqb c sep then "" :: split sep s'
      else
        match split sep s' with
        | w :: ws => String c w :: ws
        | [] => [String c ""]
        end
  end.

(** [POST /jwt]: [user] is the request body, [JWT_SECRET] the
    configured secret, [now] the clock.  The handler has no
    [try]/[catch]: what [jwt.sign] throws leaves it. *)
Definition post_jwt `{JsonWebToken} (JWT_SECRET : string)
    (user : option document) (now : Z) : outcome response :=
  match user with
  | None => Return (status_send 400 (Message "Invalid user"))
  | Some user =>
      if negb (truthy (user !! "email")) then
        Return (status_send 400 (Message "Invalid user"))
      else
        match
          jwt_sign
            (object_of [("email", user !! "email"); ("role", user !! "role")])
            JWT_SECRET now
        with
        | Return token => Return (send (TokenBody token))
        | Throw e => Throw e
        end
  end.

(** [verifyToken]: [authorization] is [req.headers.authorization]. *)
Definition verifyToken `{JsonWebToken} (JWT_SECRET : string)
    (authorization : option string) (now : Z) : middleware document :=
  match authorization with
  | None => Respond (status_send 401 (Message "Unauthorized"))
  | Some authHeader =>
      if String.eqb authHeader "" then
        Respond (status_send 401 (Message "Unauthorized"))
      else
        let token := split " " authHeader !! 1%nat in
        match jwt_verify token JWT_SECRET now with
        | Throw _ => Respond (status_send 403 (Message "Forbidden"))
        | Return decoded => Next decoded
        end
  end.

(** ** Payment *)

(** What [parseInt] makes of a number.  The number is first written
    out as a string: in decimal notation when its magnitude is at least
    [1e-6] and below [1e21], in exponent notation otherwise.  Of the
    decimal notation [parseInt] reads the integer part; of the exponent
    notation it reads the leading digit only, which this model does not
    compute. *)
Inductive parsed :=
  | NaN
  | Int (n : Z)
  | LeadingDigit.

Definition decimal_notation (x : float) : bool :=
  PrimFloat.leb 0x1.0c6f7a0b5ed8dp-20%float (PrimFloat.abs x)
  && PrimFloat.ltb (PrimFloat.abs x) 1e21%float.

(** Integer part of [±m·2^e], toward zero. *)
Definition SF_trunc (s : bool) (m : positive) (e : Z) : Z :=
  let a := if (0 <=? e)%Z then (Z.pos m * 2 ^ e)%Z
           else (Z.pos m / 2 ^ (- e))%Z in
  if s then (- a)%Z else a.

Definition parseInt (x : float) : parsed :=
  match Prim2SF x with
  | S754_zero _ => Int 0
  | S754_infinity _ => NaN
  | S754_nan => NaN
  | S754_finite s m e =>
      if decimal_notation x then Int (SF_trunc s m e) else LeadingDigit
  end.

Record PaymentIntentParams := {
  amount : parsed;
  currency : string;
  payment_method_types : list string
}.

(** The argument of [stripe.paymentIntents.create]; [price] is the
    number the request body carries. *)
Definition payment_intent_params (price : float) : PaymentIntentParams :=
  let amount := parseInt (price * 100)%float in
  {| amount := amount; currency := "usd"; payment_method_types := ["card"] |}.

(** [POST /create-payment-intent]; [create] is the payment processor,
    which answers with a client secret or fails. *)
Definition create_payment_intent
    (create : PaymentIntentParams → outcome string) (price : float)
  : response :=
  match create (payment_intent_params price) with
  | Return client_secret => send (ClientSecret client_secret)
  | Throw e => status_send 500 (ErrorBody e)
  end.

#[global] Instance collection_eq_dec : EqDecision collection.
Proof. solve_decision. Defined.

(** ** Cursors: filters, sorting and limits *)

(** [find(filter).toArray()] *)
Definition db_find (k : collection) (p : document → bool)
  : M (list document) :=
  λ s, (Return (find_all p (docs k s)), s).

(** [find()] without a filter. *)
Definition every (d : document) : bool := true.

(** [{ field: { $in: qs } }] *)
Definition in_match (qs : list value) (f : option value) : bool :=
  existsb (λ q, eq_match q f) qs.

(** The order the server sorts values by: first by kind (null, numbers,
    strings, object ids, booleans), then within the kind; strings
    compare byte by byte. *)
Definition kind_rank (v : value) : nat :=
  match v with
  | VNull => 0
  | VNum _ => 1
  | VStr _ => 2
  | VId _ => 3
  | VBool _ => 4
  end.

Definition value_compare (a b : value) : comparison :=
  match a, b with
  | VNum x, VNum y => Z.compare x y
  | VStr x, VStr y => String.compare x y
  | VId x, VId y => N.compare x y
  | VBool x, VBool y => Bool.compare x y
  | _, _ => Nat.compare (kind_rank a) (kind_rank b)
  end.

Definition value_leb (a b : value) : bool :=
  match value_compare a b with
  | Gt => false
  | _ => true
  end.

(** The key a document is sorted by; a missing field sorts as
    [null]. *)
Definition sort_key (field : string) (d : document) : value :=
  bson (d !! field).

(** [{ field: 1 }] and [{ field: -1 }] *)
Definition ascending (field : string) (a b : document) : bool :=
  value_leb (sort_key field a) (sort_key field b).

Definition descending (field : string) (a b : document) : bool :=
  value_leb (sort_key field b) (sort_key field a).

Fixpoint insert_sorted (le : document → document → bool) (x : document)
    (l : list document) : list document :=
  match l with
  | [] => [x]
  | y :: l' => if le x y then x :: l else y :: insert_sorted le x l'
  end.

(** [cursor.sort(order)].  Documents with equal keys stay in natural
    order here; the server promises no order among them. *)
Definition sort_docs (le : document → document → bool) (l : list document)
  : list document :=
  foldr (insert_sorted le) [] l.

(** [cursor.limit(n)] *)
Definition limit (n : nat) (l : list document) : list document := take n l.

(** ** Reading routes *)

(** [GET /users/:email] *)
Definition get_user (email : string) : M response :=
  try_catch
    (let* user := db_findOne users (by_field "email" (Some (VStr email))) in
     match user with
     | None => ret (status_send 404 (Message "User not found"))
     | Some u => ret (send (Doc u))
     end)
    (λ error, ret (status_send 500 (MessageError "Failed to get user" error))).

(** [GET /properties/verified] *)
Definition get_verified_properties : M response :=
  try_catch
    (let* found := db_find properties
                     (by_field "status" (Some (VStr "verified"))) in
     let verifiedProperties := sort_docs (ascending "minPrice") found in
     ret (send (Docs verifiedProperties)))
    (λ _, ret (status_send 500 (Message "Failed to fetch pending properties"))).

(** A query-string parameter that is absent or empty is falsy. *)
Definition given (q : option string) : bool :=
  match q with
  | Some s => negb (String.eqb s "")
  | None => false
  end.

(** [GET /my-properties?email=] *)
Definition get_my_properties (email : option string) : M response :=
  try_catch
    (if negb (given email) then
       ret (status_send 400 (Message "Email is required"))
     else
       let* result := db_find properties
                        (by_field "agentEmail" (VStr <$> email)) in
       ret (send (Docs result)))
    (λ _, ret (status_send 500 (Message "Failed to fetch properties"))).

(** [GET /properties/:id] *)
Definition get_property (id : string) : M response :=
  try_catch
    (let* o := lift (ObjectId id) in
     let* property := db_findOne properties (by_id o) in
     match property with
     | None => ret (status_send 404 (Message "Property not found"))
     | Some p => ret (send (Doc p))
     end)
    (λ _, ret (status_send 500 (Message "Failed to get property"))).

(** [GET /advertised] *)
Definition get_advertised : M response :=
  try_catch
    (let* result := db_find properties
                      (by_field "advertise" (Some (VBool true))) in
     ret (send (Docs result)))
    (λ _, ret (status_send 500 (Message "Failed to fetch advertise property"))).

(** [GET /wishlist?email=]: the parameter is not checked. *)
Definition get_wishlist (email : option string) : M response :=
  try_catch
    (let* result := db_find wishlists (by_field "userEmail" (VStr <$> email)) in
     ret (send (Docs result)))
    (λ _, ret (status_send 500 (Message "Failed to get wishlist data"))).

(** [GET /wishlist/:id]: no [try]/[catch]. *)
Definition get_wishlist_item (id : string) : M response :=
  let* o := lift (ObjectId id) in
  let* result := db_findOne wishlists (by_id o) in
  match result with
  | None => ret (status_send 404 (Message "Wishlist item not found"))
  | Some w => ret (send (Doc w))
  end.

(** [GET /bought-properties?email=] *)
Definition get_bought_properties (email : option string) : M response :=
  try_catch
    (if negb (given email) then
       ret (status_send 400 (Message "Email is required"))
     else
       let* found := db_find offers (by_field "buyerEmail" (VStr <$> email)) in
       ret (send (Docs found)))
    (λ _, ret (status_send 500 (Message "Failed to get bought properties"))).

(** [{ agentEmail, status: { $in: ["pending", "accepted", "rejected"] } }] *)
Definition open_offers_of (agentEmail : option string) (d : document) : bool :=
  by_field "agentEmail" (VStr <$> agentEmail) d
  && in_match [VStr "pending"; VStr "accepted"; VStr "rejected"]
       (d !! "status").

(** [GET /offers?agentEmail=] *)
Definition get_offers (agentEmail : option string) : M response :=
  try_catch
    (if negb (given agentEmail) then
       ret (status_send 400 (Message "Agent email is required"))
     else
       let* found := db_find offers (open_offers_of agentEmail) in
       ret (send (Docs found)))
    (λ error, ret (status_send 500 (MessageError "Failed to get offers" error))).

(** [{ agentEmail: agentEmail, status: "bought" }] *)
Definition sold_offers_of (agentEmail : string) (d : document) : bool :=
  by_field "agentEmail" (Some (VStr agentEmail)) d
  && by_field "status" (Some (VStr "bought")) d.

(** [GET /agent-sold-properties/:agentEmail] *)
Definition get_agent_sold_properties (agentEmail : string) : M response :=
  try_catch
    (let* soldOffers := db_find offers (sold_offers_of agentEmail) in
     ret (send (Docs soldOffers)))
    (λ _, ret (status_send 500 (Message "Failed to load sold properties"))).

(** [GET /offers/:id] *)
Definition get_offer (id : string) : M response :=
  try_catch
    (let* o := lift (ObjectId id) in
     let* found := db_findOne offers (by_id o) in
     match found with
     | None => ret (status_send 404 (Message "Offer not found"))
     | Some d => ret (send (Doc d))
     end)
    (λ _, ret (status_send 500 (Message "Failed to fetch offer"))).

(** [GET /latest-reviews] *)
Definition get_latest_reviews : M response :=
  try_catch
    (let* found := db_find reviews every in
     let result := limit 3 (sort_docs (descending "date") found) in
     ret (send (Docs result)))
    (λ _, ret (status_send 500 (Message "Failed to fetch latest reviews"))).

(** [GET /my-reviews?email=]: no [try]/[catch], no check of the
    parameter. *)
Definition get_my_reviews (email : option string) : M response :=
  let* result := db_find reviews (by_field "reviewerEmail" (VStr <$> email)) in
  ret (send (Docs result)).

(** [GET /reviews/:propertyId]: no [try]/[catch]. *)
Definition get_reviews_of (propertyId : string) : M response :=
  let* found := db_find reviews
                  (by_field "propertyId" (Some (VStr propertyId))) in
  ret (send (Docs (sort_docs (descending "date") found))).

(** The three routes that look a document up by its id. *)
Inductive lookup_endpoint :=
  | LookupProperty       (* GET /properties/:id *)
  | LookupOffer          (* GET /offers/:id *)
  | LookupWishlistItem.  (* GET /wishlist/:id *)

#[global] Instance lookup_endpoint_eq_dec : EqDecision lookup_endpoint.
Proof. solve_decision. Defined.

Definition lookup_handler (ep : lookup_endpoint) : string → M response :=
  match ep with
  | LookupProperty => get_property
  | LookupOffer => get_offer
  | LookupWishlistItem => get_wishlist_item
  end.

Definition lookup_target (ep : lookup_endpoint) : collection :=
  match ep with
  | LookupProperty => properties
  | LookupOffer => offers
  | LookupWishlistItem => wishlists
  end.

(** ** Creating routes *)

(** [POST /properties]: no [try]/[catch]. *)
Definition post_property (property : document) : M response :=
  let* result := db_insertOne properties property in
  ret (send (Inserted result)).

(** [POST /wishlist] *)
Definition post_wishlist (wishlistItem : document) : M response :=
  try_catch
    (let* result := db_insertOne wishlists wishlistItem in
     ret (status_send 201 (Inserted result)))
    (λ _, ret (status_send 500 (Message "Failed to add to wishlist"))).

(** [POST /offers] *)
Definition post_offer (offerData : document) : M response :=
  try_catch
    (let* result := db_insertOne offers offerData in
     ret (status_send 201 (Inserted result)))
    (λ _, ret (status_send 500 (Message "Failed to create offer"))).

(** [POST /reviews]: no [try]/[catch]. *)
Definition post_review (review : document) : M response :=
  let* result := db_insertOne reviews review in
  ret (status_send 201 (Inserted result)).

(** ** Dashboard *)

Record Summary := {
  totalUsers : nat;
  totalAdmins : nat;
  totalAgents : nat;
  allProperties : nat;
  pendingProperties : nat;
  acceptedProperties : nat;
  rejectedProperties : nat;
  totalReviews : nat;
  advertisedProperties : nat
}.

Definition db_countDocuments (k : collection) (p : document → bool) : M nat :=
  λ s, (Return (countDocuments p (docs k s)), s).

(** [estimatedDocumentCount()], taken as the number of documents the
    collection holds. *)
Definition db_estimatedDocumentCount (k : collection) : M nat :=
  λ s, (Return (length (docs k s)), s).

(** [GET /admin-dashboard-summary]: the summary object on success, the
    failure response otherwise. *)
Definition admin_dashboard_summary : M (Summary + response) :=
  try_catch
    (let* totalUsers := db_countDocuments users
                          (by_field "role" (Some (VStr "user"))) in
     let* totalAdmins := db_countDocuments users
                           (by_field "role" (Some (VStr "admin"))) in
     let* totalAgents := db_countDocuments users
                           (by_field "role" (Some (VStr "agent"))) in
     let* allProperties := db_estimatedDocumentCount properties in
     let* pendingProperties :=
       db_countDocuments properties (by_field "status" (Some (VStr "pending"))) in
     let* acceptedProperties :=
       db_countDocuments properties (by_field "status" (Some (VStr "verified"))) in
     let* rejectedProperties :=
       db_countDocuments properties (by_field "status" (Some (VStr "rejected"))) in
     let* advertisedProperties :=
       db_countDocuments properties (by_field "advertise" (Some (VBool true))) in
     let* totalReviews := db_estimatedDocumentCount reviews in
     ret (inl {| totalUsers := totalUsers; totalAdmins := totalAdmins;
                 totalAgents := totalAgents; allProperties := allProperties;
                 pendingProperties := pendingProperties;
                 acceptedProperties := acceptedProperties;
                 rejectedProperties := rejectedProperties;
                 totalReviews := totalReviews;
                 advertisedProperties := advertisedProperties |}))
    (λ err,
       ret (inr (status_send 500 (MessageError "Failed to load summary" err)))).

(** ** Routes behind the middlewares *)

(** [app.METHOD(path, verifyToken, handler)] and
    [app.METHOD(path, verifyToken, guard, handler)]: the handler runs
    when every middleware before it called [next()]. *)
Definition behind_token `{JsonWebToken} (JWT_SECRET : string)
    (authorization : option string) (now : Z)
    (guard : option (document → store → middleware unit))
    (handler : M response) : M response :=
  λ s,
    match verifyToken JWT_SECRET authorization now with
    | Respond r => (Return r, s)
    | Next decoded =>
        match guard with
        | None => handler s
        | Some g =>
            match g decoded s with
            | Respond r => (Return r, s)
            | Next _ => handler s
            end
        end
    end.

(** [PATCH /users/admin/:id], [PATCH /users/agent/:id],
    [PATCH /users/fraud/:id] and [DELETE /users/:id] as registered. *)
Definition route_make_admin `{JsonWebToken} (JWT_SECRET : string)
    (authorization : option string) (now : Z) (id : string) : M response :=
  behind_token JWT_SECRET authorization now (Some verifyAdmin) (make_admin id).

Definition route_make_agent `{JsonWebToken} (JWT_SECRET : string)
    (authorization : option string) (now : Z) (id : string) : M response :=
  behind_token JWT_SECRET authorization now (Some verifyAdmin) (make_agent id).

Definition route_mark_fraud `{JsonWebToken} (JWT_SECRET : string)
    (authorization : option string) (now : Z) (id : string) : M response :=
  behind_token JWT_SECRET authorization now (Some verifyAdmin) (mark_fraud id).

Definition route_delete_user `{JsonWebToken} (JWT_SECRET : string)
    (authorization : option string) (now : Z)
    (deleteUser : value → outcome unit) (id : string) : M response :=
  behind_token JWT_SECRET authorization now (Some verifyAdmin)
    (delete_user deleteUser id).

(** [PATCH /offers/accept/:id] and [PATCH /offers/reject/:id] as
    registered. *)
Definition route_accept_offer `{JsonWebToken} (JWT_SECRET : string)
    (authorization : option string) (now : Z) (id : string) : M response :=
  behind_token JWT_SECRET authorization now (Some verifyAgent)
    (accept_offer id).

Definition route_reject_offer `{JsonWebToken} (JWT_SECRET : string)
    (authorization : option string) (now : Z) (id : string) : M response :=
  behind_token JWT_SECRET authorization now (Some verifyAgent)
    (reject_offer id).

(** [PATCH /properties/verify/:id] as registered: behind [verifyToken]
    alone. *)
Definition route_verify_property `{JsonWebToken} (JWT_SECRET : string)
    (authorization : option string) (now : Z) (id : string) : M response :=
  behind_token JWT_SECRET authorization now None (verify_property id).

(** ** The writing routes *)

(** Every route that can change a collection, with what it reads from
    the request. *)
Inductive write_request :=
  | PostUsers (user : document)                       (* POST /users *)
  | PatchUserAdmin (id : string)                      (* PATCH /users/admin/:id *)
  | PatchUserAgent (id : string)                      (* PATCH /users/agent/:id *)
  | PatchUserFraud (id : string)                      (* PATCH /users/fraud/:id *)
  | PostProperties (property : document)              (* POST /properties *)
  | PutProperty (id : string) (propertyData : document)  (* PUT /properties/:id *)
  | PatchPropertyVerify (id : string)                 (* PATCH /properties/verify/:id *)
  | PatchPropertyReject (id : string)                 (* PATCH /properties/reject/:id *)
  | PatchPropertyAdvertise (id : string)              (* PATCH /properties/advertise/:id *)
  | PostWishlist (wishlistItem : document)            (* POST /wishlist *)
  | PostOffers (offerData : document)                 (* POST /offers *)
  | PatchOfferAccept (id : string)                    (* PATCH /offers/accept/:id *)
  | PatchOfferReject (id : string)                    (* PATCH /offers/reject/:id *)
  | PatchOffer (id : string) (transactionId : option value)  (* PATCH /offers/:id *)
  | PostReviews (review : document)                   (* POST /reviews *)
  | Delete (ep : delete_endpoint) (id : string).      (* DELETE ... *)

Definition write_handler (deleteUser : value → outcome unit)
    (req : write_request) : M response :=
  match req with
  | PostUsers user => post_users user
  | PatchUserAdmin id => make_admin id
  | PatchUserAgent id => make_agent id
  | PatchUserFraud id => mark_fraud id
  | PostProperties property => post_property property
  | PutProperty id propertyData => put_property id propertyData
  | PatchPropertyVerify id => verify_property id
  | PatchPropertyReject id => reject_property id
  | PatchPropertyAdvertise id => advertise_property id
  | PostWishlist wishlistItem => post_wishlist wishlistItem
  | PostOffers offerData => post_offer offerData
  | PatchOfferAccept id => accept_offer id
  | PatchOfferReject id => reject_offer id
  | PatchOffer id transactionId => mark_bought id transactionId
  | PostReviews review => post_review review
  | Delete ep id => delete_handler deleteUser ep id
  end.

(** ** Requests without a body *)

(** The writing routes that read [req.body].  The body parser leaves
    [req.body] [undefined] when the request carries no JSON body. *)
Inductive body_route :=
  | ToPostUsers                    (* POST /users *)
  | ToPostProperties               (* POST /properties *)
  | ToPutProperty (id : string)    (* PUT /properties/:id *)
  | ToPostWishlist                 (* POST /wishlist *)
  | ToPostOffers                   (* POST /offers *)
  | ToPatchOffer (id : string)     (* PATCH /offers/:id *)
  | ToPostReviews.                 (* POST /reviews *)

(** [insertOne(undefined)]: the driver reads [doc._id] and throws. *)
Definition insertOne_undefined : M InsertResult :=
  throw "Cannot read properties of undefined (reading '_id')".

(** [updateOne(filter, { $set: undefined })]: [undefined] is sent as
    [null], which the database refuses as the operand of [$set]. *)
Definition updateOne_set_undefined : M UpdateResult :=
  throw "Modifiers operate on fields but we found type null instead".

(** The handlers of these routes on a request without a body: each is
    the handler above with [undefined] for the body. *)
Definition without_body (route : body_route) : M response :=
  match route with
  | ToPostUsers =>
      try_catch
        (throw "Cannot read properties of undefined (reading 'email')")
        (λ _, ret (status_send 500 (Message "Failed to save user")))
  | ToPostProperties =>
      let* result := insertOne_undefined in
      ret (send (Inserted result))
  | ToPutProperty id =>
      try_catch
        (let* o := lift (ObjectId id) in
         let* result := updateOne_set_undefined in
         if Nat.eqb (modifiedCount result) 0 then
           ret (status_send 404 (Message "Property not found or not modified"))
         else ret (status_send 200 (Message "Property updated successfully")))
        (λ _, ret (status_send 500 (Message "Internal server error")))
  | ToPostWishlist =>
      try_catch
        (let* result := insertOne_undefined in
         ret (status_send 201 (Inserted result)))
        (λ _, ret (status_send 500 (Message "Failed to add to wishlist")))
  | ToPostOffers =>
      try_catch
        (let* result := insertOne_undefined in
         ret (status_send 201 (Inserted result)))
        (λ _, ret (status_send 500 (Message "Failed to create offer")))
  | ToPatchOffer id =>
      (* [const { transactionId } = req.body], before the [try] *)
      throw "Cannot destructure property 'transactionId' of 'req.body' as it is undefined."
  | ToPostReviews =>
      let* result := insertOne_undefined in
      ret (status_send 201 (Inserted result))
  end.

(** A writing request as it reaches its handler: with what the handler
    reads from it, the body being a JSON object where the route reads
    one, or without a body on a route that reads one. *)
Inductive incoming_request :=
  | Parsed (req : write_request)
  | Bodyless (route : body_route).

Definition incoming_handler (deleteUser : value → outcome unit)
    (req : incoming_request) : M response :=
  match req with
  | Parsed req => write_handler deleteUser req
  | Bodyless route => without_body route
  end.

(** * Vocabulary of the statements *)

(** The server keeps a unique index on [_id]. *)
Definition unique_ids (c : list document) : Prop :=
  NoDup ((λ d : document, d !! "_id") <$> c).

(** The request id [id] designates the document [d]: the filter
    [{ _id: new ObjectId(id) }] selects it. *)
Definition designates (id : string) (d : document) : Prop :=
  ∃ i, ObjectId id = Return i ∧ d !! "_id" = Some (VId i).

(** The role stored for the email of verified claims: the role of the
    user record a guard looks up. *)
Definition stored_role (decoded : document) (st : store) : option value :=
  role_of (findOne (by_field "email" (decoded !! "email"))
             (usersCollection st)).



(** Every collection has its unique index on [_id]. *)
Definition unique_ids_everywhere (st : store) : Prop :=
  ∀ k, unique_ids (docs k st).

(** No two documents carry the same email (an absent email and [null]
    are the same email, as for the filter of [POST /users]). *)
Definition unique_emails (c : list document) : Prop :=
  NoDup ((λ d : document, bson (d !! "email")) <$> c).

(** [a] sorts before or with [b]. *)
Definition value_le (a b : value) : Prop := value_leb a b = true.

(** The id a document would be refused for: one it brings along (an
    [_id] other than [null]) and the collection already holds. *)
Definition id_taken (doc : document) (c : list document) : Prop :=
  ∃ v d, own_id doc = Some v ∧ d ∈ c ∧ d !! "_id" = Some v.

(** The requests whose exception no [try]/[catch] of the handler
    catches. *)
Definition uncaught (req : incoming_request) (st : store) : Prop :=
  match req with
  | Parsed (PatchPropertyAdvertise id) | Parsed (Delete DeleteReview id) =>
      ∃ e, ObjectId id = Throw e
  | Parsed (PostProperties property) =>
      id_taken property (propertiesCollection st)
  | Parsed (PostReviews review) => id_taken review (reviewsCollection st)
  | Bodyless ToPostProperties | Bodyless ToPostReviews
  | Bodyless (ToPatchOffer _) => True
  | _ => False
  end.

(** A computation keeps a property of the store. *)
Definition keeps (I : store → Prop) {A} (m : M A) : Prop :=
  ∀ st, I st → I (snd (m st)).

(** * A small marketplace, used by the examples *)

Definition offer (i : oid) (propertyId buyerEmail status : string)
  : document :=
  {[ "_id" := VId i; "propertyId" := VStr propertyId;
     "buyerEmail" := VStr buyerEmail; "status" := VStr status ]}.

Definition user (i : oid) (email role : string) : document :=
  {[ "_id" := VId i; "email" := VStr email; "role" := VStr role ]}.

Definition id1 : string := "000000000000000000000001".
Definition id2 : string := "000000000000000000000002".
Definition id9 : string := "000000000000000000000009".

(** Two pending offers on property P, one on property Q; an admin and
    an agent. *)
Definition market : store :=
  {| propertiesCollection :=
       [ {[ "_id" := VId 1%N; "title" := VStr "P"; "status" := VStr "verified" ]} ];
     usersCollection :=
       [ user 1%N "root@estate.hub" "admin"; user 2%N "ann@estate.hub" "agent" ];
     wishlistCollection := [];
     reviewsCollection := [];
     offersCollection :=
       [ offer 1%N "P" "bob@mail" "pending";
         offer 2%N "P" "eve@mail" "pending";
         offer 3%N "Q" "bob@mail" "pending" ] |}.

(** The same marketplace once the first offer has been accepted. *)
Definition market_accepted : store :=
  {| propertiesCollection := propertiesCollection market;
     usersCollection := usersCollection market;
     wishlistCollection := [];
     reviewsCollection := [];
     offersCollection :=
       [ offer 1%N "P" "bob@mail" "accepted";
         offer 2%N "P" "eve@mail" "pending";
         offer 3%N "Q" "bob@mail" "pending" ] |}.



(** A token library for the examples: the serialisation writes the
    binary digits of a number that codes claims and signature, and the
    signature is the same writing of secret and claims. *)
#[global] Instance value_countable : Countable value.
Proof.
  refine (inj_countable'
    (λ v, match v with
          | VNull => inl ()
          | VBool b => inr (inl b)
          | VNum n => inr (inr (inl n))
          | VStr s => inr (inr (inr (inl s)))
          | VId o => inr (inr (inr (inr o)))
          end)
    (λ x, match x with
          | inl _ => VNull
          | inr (inl b) => VBool b
          | inr (inr (inl n)) => VNum n
          | inr (inr (inr (inl s))) => VStr s
          | inr (inr (inr (inr o))) => VId o
          end) _).
  by intros [].
Defined.

Fixpoint digits (p : positive) : string :=
  match p with
  | xH => "."
  | xO p => String "0" (digits p)
  | xI p => String "1" (digits p)
  end.

Fixpoint undigits (s : string) : option positive :=
  match s with
  | EmptyString => None
  | String c s' =>
      if Ascii.eqb c "." then
        match s' with EmptyString => Some xH | _ => None end
      else if Ascii.eqb c "0" then xO <$> undigits s'
      else if Ascii.eqb c "1" then xI <$> undigits s'
      else None
  end.

#[global] Instance digits_jwt : JsonWebToken := {|
  hmac secret claims := digits (encode (secret, claims));
  jwt_encode t := digits (encode t);
  jwt_decode s := undigits s ≫= decode
|}.
(** * Properties of the driver model *)

Section driver_facts.
Implicit Types (c : list document) (d o upd : document) (i : oid).
Implicit Types (p : document → bool).

Lemma unique_ids_inj c d o :
  unique_ids c → d ∈ c → o ∈ c → d !! "_id" = o !! "_id" → d = o.
Proof.
  unfold unique_ids. induction c as [|x c IH]; intros Hnd Hd Ho Heq.
  - by apply elem_of_nil in Hd.
  - rewrite fmap_cons in Hnd. apply list.NoDup_cons in Hnd as [Hx Hnd].
    apply elem_of_cons in Hd as [->|Hd]; apply elem_of_cons in Ho as [->|Ho];
      try done.
    + exfalso. apply Hx. rewrite Heq. by apply list_elem_of_fmap_2.
    + exfalso. apply Hx. rewrite <- Heq. by apply list_elem_of_fmap_2.
    + by apply IH.
Qed.

Lemma by_id_spec i d : by_id i d = true ↔ d !! "_id" = Some (VId i).
Proof. unfold by_id, eq_match. by rewrite bool_decide_eq_true. Qed.

Lemma by_id_of o i : o !! "_id" = Some (VId i) → by_id i o = true.
Proof. by intros; apply by_id_spec. Qed.

Lemma by_id_other c d o i :
  unique_ids c → d ∈ c → o ∈ c → o !! "_id" = Some (VId i) → d ≠ o →
  by_id i d = false.
Proof.
  intros Hu Hd Ho Hi Hne. apply not_true_is_false. intros Hb.
  apply by_id_spec in Hb. apply Hne.
  apply (unique_ids_inj c); try done. congruence.
Qed.

Lemma findOne_none p c :
  findOne p c = None ↔ ∀ d, d ∈ c → p d = false.
Proof.
  unfold findOne. induction c as [|x c IH]; simpl.
  - split; [intros _ d Hd; by apply elem_of_nil in Hd | done].
  - destruct (p x) eqn:Hx.
    + split; [done|]. intros H. specialize (H x (list_elem_of_here _ _)).
      congruence.
    + rewrite IH. split.
      * intros H d Hd. apply elem_of_cons in Hd as [->|Hd]; auto.
      * intros H d Hd. apply H. by apply list_elem_of_further.
Qed.

Lemma findOne_some p c d :
  findOne p c = Some d → d ∈ c ∧ p d = true.
Proof.
  unfold findOne. intros H. apply find_some in H as [H1 H2].
  split; [by apply list_elem_of_In | done].
Qed.

Lemma findOne_by_id c o i :
  unique_ids c → o ∈ c → o !! "_id" = Some (VId i) →
  findOne (by_id i) c = Some o.
Proof.
  intros Hu Ho Hi. destruct (findOne (by_id i) c) as [d|] eqn:Hf.
  - apply findOne_some in Hf as [Hd Hb]. apply by_id_spec in Hb.
    f_equal. apply (unique_ids_inj c); try done. congruence.
  - rewrite findOne_none in Hf. specialize (Hf o Ho).
    by rewrite (by_id_of o i) in Hf.
Qed.

Lemma apply_set_singleton k v d : apply_set {[ k := v ]} d = <[k := v]> d.
Proof. unfold apply_set. by rewrite insert_union_singleton_l. Qed.

Lemma updateOne_no_match p upd c :
  (∀ d, d ∈ c → p d = false) →
  updateOne p upd c
  = (Return {| matchedCount := 0; modifiedCount := 0 |}, c).
Proof.
  induction c as [|x c IH]; intros H; simpl; [done|].
  rewrite (H x (list_elem_of_here _ _)).
  rewrite IH; [done|]. intros d Hd. apply H. by apply list_elem_of_further.
Qed.

Lemma fmap_only_id (f : document → document) c o :
  o ∉ c → (λ d, if decide (d = o) then f d else d) <$> c = c.
Proof.
  intros Hn. induction c as [|x c IH]; [done|].
  apply not_elem_of_cons in Hn as [Hx Hc]. rewrite fmap_cons, IH by done.
  by rewrite decide_False by congruence.
Qed.

Lemma unique_ids_head_fresh x c : unique_ids (x :: c) → x ∉ c.
Proof.
  unfold unique_ids. rewrite fmap_cons. intros Hnd Hx.
  apply list.NoDup_cons in Hnd as [Hn _]. apply Hn.
  by apply list_elem_of_fmap_2.
Qed.

Lemma unique_ids_tail x c : unique_ids (x :: c) → unique_ids c.
Proof.
  unfold unique_ids. rewrite fmap_cons. intros Hnd.
  by apply list.NoDup_cons in Hnd as [_ ?].
Qed.

(** Writing through [_id] rewrites the one document that carries it. *)
Lemma updateOne_by_id_gen c o i upd :
  unique_ids c → o ∈ c → o !! "_id" = Some (VId i) → id_clash upd o = false →
  updateOne (by_id i) upd c
  = (Return {| matchedCount := 1; modifiedCount := changed upd o |},
     (λ d, if decide (d = o) then apply_set upd d else d) <$> c).
Proof.
  intros Hu Ho Hi Hupd. induction c as [|x c IH]; [by apply elem_of_nil in Ho|].
  simpl. destruct (decide (x = o)) as [->|Hne].
  - rewrite (by_id_of o i) by done. rewrite Hupd.
    rewrite fmap_only_id; [done|]. by apply unique_ids_head_fresh.
  - rewrite (by_id_other (x :: c) x o i); try done;
      [|apply list_elem_of_here].
    apply elem_of_cons in Ho as [->|Ho]; [done|].
    rewrite IH; [done| by eapply unique_ids_tail | done].
Qed.

Lemma updateOne_by_id c o i upd :
  unique_ids c → o ∈ c → o !! "_id" = Some (VId i) → upd !! "_id" = None →
  updateOne (by_id i) upd c
  = (Return {| matchedCount := 1; modifiedCount := changed upd o |},
     (λ d, if decide (d = o) then apply_set upd d else d) <$> c).
Proof.
  intros Hu Ho Hi Hupd. apply updateOne_by_id_gen; try done.
  unfold id_clash. by rewrite Hupd.
Qed.

(** A payload that leaves the designated document as it is: one match,
    no modification, the collection unchanged. *)
Lemma updateOne_noop c o i upd :
  unique_ids c → o ∈ c → o !! "_id" = Some (VId i) → apply_set upd o = o →
  updateOne (by_id i) upd c
  = (Return {| matchedCount := 1; modifiedCount := 0 |}, c).
Proof.
  intros Hu Ho Hi Hsame.
  assert (Hclash : id_clash upd o = false).
  { unfold id_clash. destruct (upd !! "_id") as [v|] eqn:Hv; [|done].
    rewrite <- Hsame. unfold apply_set.
    rewrite (lookup_union_Some_l upd o "_id" v Hv).
    by rewrite bool_decide_eq_true_2. }
  rewrite (updateOne_by_id_gen c o i upd) by done.
  unfold changed. rewrite decide_True by done. f_equal.
  induction c as [|x c IH]; [done|]. rewrite fmap_cons. f_equal.
  - destruct (decide (x = o)) as [->|]; done.
  - destruct (decide (x = o)) as [->|Hne].
    + apply fmap_only_id. by apply unique_ids_head_fresh.
    + apply elem_of_cons in Ho as [->|Ho]; [done|].
      apply IH; [by eapply unique_ids_tail | done].
Qed.

(** A write that does not name [_id] is never refused, and it matches
    as soon as some document satisfies the filter. *)
Lemma updateOne_returns p upd c :
  upd !! "_id" = None →
  ∃ res c', updateOne p upd c = (Return res, c')
            ∧ ((∃ d, d ∈ c ∧ p d = true) → matchedCount res = 1).
Proof.
  intros Hupd. induction c as [|x c (res & c' & IH & Hm)]; simpl.
  - eexists _, _. split; [done|]. intros (d & Hd & _).
    by apply elem_of_nil in Hd.
  - destruct (p x) eqn:Hx.
    + unfold id_clash. rewrite Hupd. eexists _, _. by split.
    + rewrite IH. eexists _, _. split; [done|]. intros (d & Hd & Hp).
      apply Hm. apply elem_of_cons in Hd as [->|Hd]; [congruence|eauto].
Qed.

Lemma updateMany_set p upd c :
  upd !! "_id" = None →
  ∃ r, updateMany p upd c
       = (Return r, (λ d, if p d then apply_set upd d else d) <$> c).
Proof.
  intros Hupd. induction c as [|x c [r IH]]; simpl; [by eexists|].
  rewrite IH. unfold id_clash. rewrite Hupd.
  destruct (p x); by eexists.
Qed.

Lemma deleteOne_no_match p c :
  (∀ d, d ∈ c → p d = false) →
  deleteOne p c = ({| deletedCount := 0 |}, c).
Proof.
  induction c as [|x c IH]; intros H; simpl; [done|].
  rewrite (H x (list_elem_of_here _ _)).
  rewrite IH; [done|]. intros d Hd. apply H. by apply list_elem_of_further.
Qed.
End driver_facts.

Lemma set_docs_same k s : set_docs k (docs k s) s = s.
Proof. by destruct k, s. Qed.

Lemma docs_set_docs k c s : docs k (set_docs k c s) = c.
Proof. by destruct k. Qed.

Lemma set_docs_set_docs k c c' s :
  set_docs k c (set_docs k c' s) = set_docs k c s.
Proof. by destruct k. Qed.


Lemma eq_match_bson (x y : option value) :
  eq_match (bson x) y = bool_decide (bson y = bson x).
Proof.
  destruct x as [[| | | |]|]; simpl; apply bool_decide_ext;
    destruct y as [[| | | |]|]; simpl; intuition congruence.
Qed.

Lemma changed_set_status (s : string) (d : document) :
  changed (set_status s) d
  = if decide (d !! "status" = Some (VStr s)) then 0 else 1.
Proof.
  unfold changed, set_status. rewrite apply_set_singleton.
  destruct (decide (d !! "status" = Some (VStr s))) as [H|H].
  - by rewrite decide_True by (by apply insert_id).
  - rewrite decide_False; [done|]. intros Heq. apply H.
    rewrite <- Heq. by rewrite lookup_insert_eq.
Qed.

(** After the first write the target is excluded from the second by
    its [_id]; every other offer is selected by its property reference
    alone. *)
Lemma sibling_filter_after_accept (c : list document) (o d : document)
    (i : oid) :
  unique_ids c → o ∈ c → d ∈ c → o !! "_id" = Some (VId i) →
  (let d1 := if decide (d = o) then apply_set (set_status "accepted") d
             else d in
   if sibling_filter (o !! "propertyId") i d1
   then apply_set (set_status "rejected") d1 else d1)
  = if decide (d = o) then <["status" := VStr "accepted"]> d
    else if decide (bson (d !! "propertyId") = bson (o !! "propertyId"))
         then <["status" := VStr "rejected"]> d
         else d.
Proof.
  intros Hu Ho Hd Hi. simpl. unfold set_status.
  rewrite !apply_set_singleton. unfold sibling_filter, id_ne.
  destruct (decide (d = o)) as [->|Hne].
  - fold (by_id i (<["status" := VStr "accepted"]> o)).
    rewrite (by_id_of _ i) by (by rewrite lookup_insert_ne).
    by rewrite andb_false_r.
  - fold (by_id i d). rewrite (by_id_other c d o i) by done.
    rewrite eq_match_bson, andb_true_r.
    by destruct (decide (bson (d !! "propertyId") = bson (o !! "propertyId")));
      [rewrite bool_decide_eq_true_2 | rewrite bool_decide_eq_false_2].
Qed.

(** The store reached by the accept flow on an existing offer, whatever
    the response is. *)
Lemma accept_offer_run (st : store) (o : document) (i : oid) (id : string) :
  unique_ids (offersCollection st) → o ∈ offersCollection st →
  o !! "_id" = Some (VId i) → ObjectId id = Return i →
  ∃ st1 res,
    db_updateOne offers (by_id i) (set_status "accepted") st
      = (Return {| matchedCount := 1;
                   modifiedCount := changed (set_status "accepted") o |}, st1)
    ∧ offersCollection st1
      = (λ d, if decide (d = o) then <["status" := VStr "accepted"]> d else d)
          <$> offersCollection st
    ∧ db_updateMany offers (sibling_filter (o !! "propertyId") i)
        (set_status "rejected") st1
      = (Return res,
         set_docs offers
           ((λ d, if decide (d = o) then <["status" := VStr "accepted"]> d
                  else if decide (bson (d !! "propertyId")
                                  = bson (o !! "propertyId"))
                       then <["status" := VStr "rejected"]> d
                       else d) <$> offersCollection st) st)
    ∧ accept_offer id st
      = (Return
           (if Nat.eqb (changed (set_status "accepted") o) 0
            then status_send 404 (Message "Offer not found or already updated")
            else send (Message
                   "Offer accepted and other offers rejected successfully")),
         set_docs offers
           ((λ d, if decide (d = o) then <["status" := VStr "accepted"]> d
                  else if decide (bson (d !! "propertyId")
                                  = bson (o !! "propertyId"))
                       then <["status" := VStr "rejected"]> d
                       else d) <$> offersCollection st) st).
Proof.
  intros Hu Ho Hi Hid.
  assert (Hone : db_updateOne offers (by_id i) (set_status "accepted") st
    = (Return {| matchedCount := 1;
                 modifiedCount := changed (set_status "accepted") o |},
       set_docs offers
         ((λ d, if decide (d = o)
                then apply_set (set_status "accepted") d else d)
            <$> offersCollection st) st)).
  { unfold db_updateOne, on_collection. simpl.
    by rewrite (updateOne_by_id _ o i). }
  destruct (updateMany_set (sibling_filter (o !! "propertyId") i)
              (set_status "rejected")
              ((λ d, if decide (d = o)
                     then apply_set (set_status "accepted") d else d)
                 <$> offersCollection st)) as [res Hmany]; [done|].
  assert (Hcomp :
    (λ d, if sibling_filter (o !! "propertyId") i d
          then apply_set (set_status "rejected") d else d)
      <$> ((λ d, if decide (d = o)
                 then apply_set (set_status "accepted") d else d)
             <$> offersCollection st)
    = (λ d, if decide (d = o) then <["status" := VStr "accepted"]> d
            else if decide (bson (d !! "propertyId")
                            = bson (o !! "propertyId"))
                 then <["status" := VStr "rejected"]> d
                 else d) <$> offersCollection st).
  { rewrite <- list_fmap_compose. apply list_fmap_ext.
    intros k d Hk. simpl.
    apply (sibling_filter_after_accept (offersCollection st) o d i);
      try done. by eapply list_elem_of_lookup_2. }
  rewrite Hcomp in Hmany.
  assert (Hsecond :
    db_updateMany offers (sibling_filter (o !! "propertyId") i)
      (set_status "rejected")
      (set_docs offers
         ((λ d, if decide (d = o)
                then apply_set (set_status "accepted") d else d)
            <$> offersCollection st) st)
    = (Return res,
       set_docs offers
         ((λ d, if decide (d = o) then <["status" := VStr "accepted"]> d
                else if decide (bson (d !! "propertyId")
                                = bson (o !! "propertyId"))
                     then <["status" := VStr "rejected"]> d
                     else d) <$> offersCollection st) st)).
  { unfold db_updateMany, on_collection. rewrite docs_set_docs, Hmany.
    by rewrite set_docs_set_docs. }
  eexists _, res. split; [exact Hone|]. split.
  { simpl. apply list_fmap_ext. intros k d _. simpl.
    destruct (decide (d = o)); [|done].
    unfold set_status. by rewrite apply_set_singleton. }
  split; [exact Hsecond|].
  unfold accept_offer, accept_offer_with, try_catch, bind, lift. rewrite Hid.
  unfold db_findOne at 1. simpl docs.
  rewrite (findOne_by_id _ o i) by done. simpl read_propertyId.
  unfold ret at 1. rewrite Hone, Hsecond. cbn [modifiedCount].
  destruct (Nat.eqb (changed (set_status "accepted") o) 0); reflexivity.
Qed.

(** The id a document brings along is its [_id] field, when that is
    not [null]. *)
Lemma own_id_some (doc : document) (v : value) :
  own_id doc = Some v ↔ doc !! "_id" = Some v ∧ v ≠ VNull.
Proof.
  unfold own_id. destruct (doc !! "_id") as [[]|]; split;
    (intros [= <-] || intros [[= <-] Hv] || intros [[=] _]); try done.
Qed.

Lemma own_id_none (doc : document) :
  own_id doc = None ↔ doc !! "_id" = None ∨ doc !! "_id" = Some VNull.
Proof.
  unfold own_id. destruct (doc !! "_id") as [[]|]; split;
    (intros [=] || intros [[=]|[=]] || idtac); auto.
Qed.

Lemma docs_set_docs_ne k k' c s : k ≠ k' → docs k (set_docs k' c s) = docs k s.
Proof. by destruct k, k'. Qed.

Lemma fmap_fixed {A} (f : A → A) (l : list A) :
  f <$> l = l → ∀ x, x ∈ l → f x = x.
Proof.
  induction l as [|y l IH]; intros Heq x Hx; [by apply elem_of_nil in Hx|].
  rewrite fmap_cons in Heq. injection Heq as Hy Hl.
  apply elem_of_cons in Hx as [->|Hx]; auto.
Qed.


(** Settles a decidable statement about the example data by running
    its decision procedure. *)
Ltac decided :=
  unfold unique_ids; apply (bool_decide_unpack _); vm_compute; reflexivity.

(** * The offer lifecycle *)

(** Property references are compared as the driver sends them: an
    offer without a [propertyId] and an offer whose [propertyId] is
    [null] carry the same reference.  When the accepted offer has a
    reference other than [null], that is equality of the fields. *)
Remark same_reference_present (o d : document) (v : value) :
  o !! "propertyId" = Some v → v ≠ VNull →
  bson (d !! "propertyId") = bson (o !! "propertyId")
  ↔ d !! "propertyId" = o !! "propertyId".
Proof.
  intros -> Hv. simpl. split; [|by intros ->].
  destruct (d !! "propertyId") as [w|]; simpl; congruence.
Qed.







(** C2.  Accepting an offer whose status is already [accepted]: the
    target write modifies no document and the response is 404, yet the
    cascade has run: every other offer with an equal property reference
    is [rejected] in the store the handler leaves, so the store differs
    from the one it started from as soon as one of them was not
    rejected before. *)
Theorem accept_offer_twice_not_found (st : store) (o : document) (i : oid)
    (id : string) :
  unique_ids (offersCollection st) → o ∈ offersCollection st →
  o !! "_id" = Some (VId i) → ObjectId id = Return i →
  o !! "status" = Some (VStr "accepted") →
  ∃ r st1 st',
    accept_offer id st = (Return r, st')
    ∧ NotFound r
    ∧ db_updateOne offers (by_id i) (set_status "accepted") st
      = (Return {| matchedCount := 1; modifiedCount := 0 |}, st1)
    ∧ (∀ d, d ∈ offersCollection st → d ≠ o →
            bson (d !! "propertyId") = bson (o !! "propertyId") →
            <["status" := VStr "rejected"]> d ∈ offersCollection st')
    ∧ ((∃ d, d ∈ offersCollection st ∧ d ≠ o
             ∧ bson (d !! "propertyId") = bson (o !! "propertyId")
             ∧ d !! "status" ≠ Some (VStr "rejected")) →
       st' ≠ st).
Proof.
  intros Hu Ho Hi Hid Hst.
  destruct (accept_offer_run st o i id Hu Ho Hi Hid)
    as (st1 & res & Hone & Hst1 & Hmany & Hrun).
  rewrite changed_set_status, decide_True in Hone, Hrun by done.
  simpl in Hrun. eexists _, st1, _. split; [exact Hrun|].
  split; [reflexivity|]. split; [exact Hone|].
  split.
  - intros d Hd Hne Hp. simpl. apply list_elem_of_fmap. exists d.
    split; [|done]. by rewrite decide_False, decide_True.
  - intros (d & Hd & Hne & Hp & Hs) Heq.
    apply (f_equal offersCollection) in Heq. simpl in Heq.
    pose proof (fmap_fixed _ _ Heq d Hd) as Hfix. simpl in Hfix.
    rewrite decide_False, decide_True in Hfix by done.
    apply Hs. rewrite <- Hfix. by rewrite lookup_insert_eq.
Qed.

Lemma accept_offer_twice_not_found_witness :
  ∃ r st',
    accept_offer id1 market_accepted = (Return r, st')
    ∧ status r = 404
    ∧ offer 2%N "P" "eve@mail" "rejected" ∈ offersCollection st'
    ∧ st' ≠ market_accepted.
Proof.
  destruct (accept_offer_twice_not_found market_accepted
              (offer 1%N "P" "bob@mail" "accepted") 1%N id1)
    as (r & st1 & st' & Hrun & Hr & _ & Hrej & Hne).
  - decided.
  - decided.
  - vm_compute. reflexivity.
  - vm_compute. reflexivity.
  - vm_compute. reflexivity.
  - exists r, st'. split; [exact Hrun|]. split; [exact Hr|]. split.
    + replace (offer 2%N "P" "eve@mail" "rejected")
        with (<["status" := VStr "rejected"]> (offer 2%N "P" "eve@mail" "pending"))
        by (vm_compute; reflexivity).
      apply Hrej.
      * decided.
      * decided.
      * vm_compute. reflexivity.
    + apply Hne. exists (offer 2%N "P" "eve@mail" "pending").
      split; [decided|].
      split; [decided|].
      split; [vm_compute; reflexivity|].
      decided.
Defined.

(** C10.  Accepting with an id that designates no offer answers 500,
    not 404, and leaves the store as it was: either the id is refused by
    the [ObjectId] constructor, or the lookup returns [null] and reading
    its property reference throws before any write. *)
Theorem accept_offer_unknown_id (st : store) (id : string) :
  (∀ d, d ∈ offersCollection st → ¬ designates id d) →
  ∃ r, accept_offer id st = (Return r, st)
       ∧ InternalError r ∧ ¬ NotFound r.
Proof.
  intros Hno. unfold accept_offer, accept_offer_with, try_catch, bind, lift.
  destruct (ObjectId id) as [i|e] eqn:Hid.
  - unfold db_findOne at 1. simpl docs.
    assert (Hf : findOne (by_id i) (offersCollection st) = None).
    { apply findOne_none. intros d Hd. apply not_true_is_false. intros Hb.
      apply (Hno d Hd). exists i. split; [done|]. by apply by_id_spec. }
    rewrite Hf. simpl. eexists. split; [reflexivity|]. by split.
  - simpl. eexists. split; [reflexivity|]. by split.
Qed.

Lemma accept_offer_unknown_id_witness :
  ∃ r, accept_offer id9 market = (Return r, market) ∧ status r = 500.
Proof.
  destruct (accept_offer_unknown_id market id9) as (r & Hrun & Hr & _).
  - intros d Hd (i & Hi & Hd'). vm_compute in Hi. injection Hi as <-.
    assert (HF : Forall (λ d : document, d !! "_id" ≠ Some (VId 9%N))
                   (offersCollection market)) by decided.
    rewrite list.Forall_forall in HF. exact (HF d Hd Hd').
  - exists r. split; [exact Hrun | exact Hr].
Defined.




(** * Users *)

Lemma eq_match_refl (v : value) : eq_match v (Some v) = true.
Proof. destruct v; unfold eq_match; apply bool_decide_eq_true_2; auto. Qed.

(** C5.  Creating a user whose email is already the email of a stored
    user answers 400 and leaves the store as it was: nothing is
    inserted. *)
Theorem post_users_existing_email (st : store) (user u : document)
    (e : value) :
  u ∈ usersCollection st → user !! "email" = Some e → u !! "email" = Some e →
  ∃ r, post_users user st = (Return r, st) ∧ BadRequest r.
Proof.
  intros Hu He Hue. unfold post_users, try_catch, bind, db_findOne.
  change (docs users st) with (usersCollection st). rewrite He.
  destruct (findOne (by_field "email" (Some e)) (usersCollection st))
    as [d|] eqn:Hf.
  - eexists. split; reflexivity.
  - rewrite findOne_none in Hf. specialize (Hf u Hu).
    unfold by_field in Hf. simpl in Hf. rewrite Hue, eq_match_refl in Hf.
    discriminate.
Qed.

Lemma post_users_existing_email_witness :
  ∃ r, post_users {[ "email" := VStr "ann@estate.hub"; "role" := VStr "admin" ]}
         market = (Return r, market)
       ∧ status r = 400.
Proof.
  destruct (post_users_existing_email market
              {[ "email" := VStr "ann@estate.hub"; "role" := VStr "admin" ]}
              (user 2%N "ann@estate.hub" "agent") (VStr "ann@estate.hub"))
    as (r & Hrun & Hr).
  - decided.
  - vm_compute. reflexivity.
  - vm_compute. reflexivity.
  - exists r. split; [exact Hrun | exact Hr].
Defined.

(** * Deleting *)

Lemma no_match_by_id (c : list document) (id : string) (i : oid) :
  (∀ d, d ∈ c → ¬ designates id d) → ObjectId id = Return i →
  ∀ d, d ∈ c → by_id i d = false.
Proof.
  intros Hno Hid d Hd. apply not_true_is_false. intros Hb.
  apply (Hno d Hd). exists i. split; [done|]. by apply by_id_spec.
Qed.

Lemma db_deleteOne_no_match (k : collection) (p : document → bool)
    (st : store) :
  (∀ d, d ∈ docs k st → p d = false) →
  db_deleteOne k p st = (Return {| deletedCount := 0 |}, st).
Proof.
  intros H. unfold db_deleteOne, on_collection.
  rewrite deleteOne_no_match by done. by rewrite set_docs_same.
Qed.

(** What each delete route does with an id that designates no document
    of its collection. *)
Lemma delete_handler_unknown_id (deleteUser : value → outcome unit)
    (ep : delete_endpoint) (st : store) (id : string) :
  (∀ d, d ∈ docs (delete_target ep) st → ¬ designates id d) →
  match ObjectId id with
  | Return _ =>
      ∃ r, delete_handler deleteUser ep id st = (Return r, st) ∧ NotFound r
  | Throw e =>
      if decide (ep = DeleteReview)
      then delete_handler deleteUser ep id st = (Throw e, st)
      else ∃ r, delete_handler deleteUser ep id st = (Return r, st)
                ∧ InternalError r
  end.
Proof.
  intros Hno. destruct (ObjectId id) as [i|e] eqn:Hid.
  - pose proof (no_match_by_id _ id i Hno Hid) as Hnone.
    destruct ep; simpl in *;
      unfold delete_property, delete_user, delete_wishlist, delete_review,
        try_catch, bind, lift; rewrite Hid.
    + rewrite db_deleteOne_no_match by done. eexists; split; reflexivity.
    + unfold db_findOne at 1. cbn [docs].
      rewrite (proj2 (findOne_none _ _) Hnone). eexists; split; reflexivity.
    + rewrite db_deleteOne_no_match by done. eexists; split; reflexivity.
    + rewrite db_deleteOne_no_match by done. eexists; split; reflexivity.
  - destruct ep; simpl;
      unfold delete_property, delete_user, delete_wishlist, delete_review,
        try_catch, bind, lift; rewrite Hid; simpl;
      try (eexists; split; reflexivity); reflexivity.
Qed.

(** C7, as the code has it.  For every delete route and every id that
    designates no document of its collection, the route never answers
    with a success and leaves the store as it was.  It answers 404 when
    the id is a well-formed object id; when the [ObjectId] constructor
    refuses the id, the property, user and wishlist routes answer 500. *)
Theorem delete_unknown_id (deleteUser : value → outcome unit)
    (ep : delete_endpoint) (st : store) (id : string) :
  (∀ d, d ∈ docs (delete_target ep) st → ¬ designates id d) →
  (∀ r st', delete_handler deleteUser ep id st = (Return r, st') →
            ¬ Success r ∧ st' = st)
  ∧ (∀ i, ObjectId id = Return i →
          ∃ r, delete_handler deleteUser ep id st = (Return r, st)
               ∧ NotFound r)
  ∧ (∀ e, ObjectId id = Throw e → ep ≠ DeleteReview →
          ∃ r, delete_handler deleteUser ep id st = (Return r, st)
               ∧ InternalError r).
Proof.
  intros Hno.
  pose proof (delete_handler_unknown_id deleteUser ep st id Hno) as H.
  split; [|split].
  - intros r st' Hrun. destruct (ObjectId id) as [i|e].
    + destruct H as (r' & Hr' & Hnf). rewrite Hr' in Hrun.
      injection Hrun as <- <-. split; [|done].
      unfold NotFound in Hnf. unfold Success. lia.
    + destruct (decide (ep = DeleteReview)).
      * rewrite H in Hrun. discriminate.
      * destruct H as (r' & Hr' & Hie). rewrite Hr' in Hrun.
        injection Hrun as <- <-. split; [|done].
        unfold InternalError in Hie. unfold Success. lia.
  - intros i Hid. by rewrite Hid in H.
  - intros e Hid Hep. rewrite Hid in H. by rewrite decide_False in H.
Qed.

Lemma delete_unknown_id_witness :
  ∃ r, delete_property id9 market = (Return r, market) ∧ status r = 404.
Proof.
  destruct (delete_unknown_id (λ _, Return ()) DeleteProperty market id9)
    as (_ & H404 & _).
  - intros d Hd (i & Hi & Hd'). vm_compute in Hi. injection Hi as <-.
    assert (HF : Forall (λ d : document, d !! "_id" ≠ Some (VId 9%N))
                   (propertiesCollection market)) by decided.
    rewrite list.Forall_forall in HF. exact (HF d Hd Hd').
  - destruct (H404 9%N) as (r & Hrun & Hr); [vm_compute; reflexivity|].
    exists r. split; [exact Hrun | exact Hr].
Defined.

(** C7, as stated, fails: the id [xyz] designates no property, and
    the property route answers 500 to it, not 404. *)
Lemma delete_unknown_id_not_404 :
  (∀ d, d ∈ propertiesCollection market → ¬ designates "xyz" d)
  ∧ ∃ r, delete_property "xyz" market = (Return r, market)
         ∧ InternalError r ∧ ¬ NotFound r.
Proof.
  split.
  - intros d _ (i & Hi & _). vm_compute in Hi. discriminate.
  - eexists. split; [vm_compute; reflexivity|]. by split.
Qed.

(** * Updating *)

Lemma db_updateOne_run (k : collection) (p : document → bool)
    (upd : document) (st : store) (o : outcome UpdateResult)
    (c : list document) :
  updateOne p upd (docs k st) = (o, c) →
  db_updateOne k p upd st = (o, set_docs k c st).
Proof. intros H. unfold db_updateOne, on_collection. by rewrite H. Qed.

(** The routes that test the modify count. *)
Lemma put_property_run (st : store) (id : string) (i : oid)
    (propertyData : document) (res : UpdateResult) (c : list document) :
  ObjectId id = Return i →
  updateOne (by_id i) propertyData (propertiesCollection st)
    = (Return res, c) →
  put_property id propertyData st
  = (Return (if Nat.eqb (modifiedCount res) 0
             then status_send 404
                    (Message "Property not found or not modified")
             else status_send 200 (Message "Property updated successfully")),
     set_docs properties c st).
Proof.
  intros Hid Hup. unfold put_property, try_catch, bind, lift.
  rewrite Hid, (db_updateOne_run properties _ _ _ _ _ Hup).
  destruct (Nat.eqb (modifiedCount res) 0); reflexivity.
Qed.

Lemma reject_offer_run (st : store) (id : string) (i : oid)
    (res : UpdateResult) (c : list document) :
  ObjectId id = Return i →
  updateOne (by_id i) (set_status "rejected") (offersCollection st)
    = (Return res, c) →
  reject_offer id st
  = (Return (if Nat.eqb (modifiedCount res) 0
             then status_send 404
                    (Message "Offer not found or already updated")
             else send (Message "Offer rejected successfully")),
     set_docs offers c st).
Proof.
  intros Hid Hup. unfold reject_offer, try_catch, bind, lift.
  rewrite Hid, (db_updateOne_run offers _ _ _ _ _ Hup).
  destruct (Nat.eqb (modifiedCount res) 0); reflexivity.
Qed.

Lemma mark_bought_run (st : store) (id : string) (i : oid)
    (transactionId : option value) (res : UpdateResult)
    (c : list document) :
  ObjectId id = Return i →
  updateOne (by_id i)
    (<["transactionId" := bson transactionId]> (set_status "bought"))
    (offersCollection st) = (Return res, c) →
  mark_bought id transactionId st
  = (Return (if Nat.eqb (modifiedCount res) 0
             then status_send 404
                    (Message "Offer not found or already updated")
             else send (MessageResult
                          "Offer updated to bought successfully!" res)),
     set_docs offers c st).
Proof.
  intros Hid Hup. unfold mark_bought, try_catch, bind, lift.
  rewrite Hid, (db_updateOne_run offers _ _ _ _ _ Hup).
  destruct (Nat.eqb (modifiedCount res) 0); reflexivity.
Qed.

Lemma accept_offer_found_run (st : store) (id : string) (i : oid)
    (o : document) (res : UpdateResult) (c : list document) :
  ObjectId id = Return i →
  findOne (by_id i) (offersCollection st) = Some o →
  updateOne (by_id i) (set_status "accepted") (offersCollection st)
    = (Return res, c) →
  ∃ st',
    accept_offer id st
    = (Return (if Nat.eqb (modifiedCount res) 0
               then status_send 404
                      (Message "Offer not found or already updated")
               else send (Message
                      "Offer accepted and other offers rejected successfully")),
       st').
Proof.
  intros Hid Hfind Hup.
  unfold accept_offer, accept_offer_with, try_catch, bind, lift.
  rewrite Hid. unfold db_findOne at 1. cbn [docs]. rewrite Hfind.
  cbn [read_propertyId]. unfold ret at 1.
  rewrite (db_updateOne_run offers _ _ _ _ _ Hup).
  unfold db_updateMany, on_collection. rewrite docs_set_docs.
  destruct (updateMany_set (sibling_filter (o !! "propertyId") i)
              (set_status "rejected") c) as [res' Hmany]; [done|].
  rewrite Hmany, set_docs_set_docs. eexists.
  destruct (Nat.eqb (modifiedCount res) 0); reflexivity.
Qed.

(** The routes that test the match count. *)
Lemma patch_user_run (upd : document) (done : string) (st : store)
    (id : string) (i : oid) (res : UpdateResult) (c : list document) :
  ObjectId id = Return i →
  updateOne (by_id i) upd (usersCollection st) = (Return res, c) →
  patch_user upd done id st
  = (Return (if Nat.eqb (matchedCount res) 0
             then status_send 404 (Message "User not found")
             else send (SuccessMessage true done)),
     set_docs users c st).
Proof.
  intros Hid Hup. unfold patch_user, try_catch, bind, lift.
  rewrite Hid, (db_updateOne_run users _ _ _ _ _ Hup).
  destruct (Nat.eqb (matchedCount res) 0); reflexivity.
Qed.

(** The routes that send the update result as it is. *)
Lemma verify_property_run (st : store) (id : string) (i : oid)
    (res : UpdateResult) (c : list document) :
  ObjectId id = Return i →
  updateOne (by_id i) (set_status "verified") (propertiesCollection st)
    = (Return res, c) →
  verify_property id st = (Return (send (Updated res)), set_docs properties c st).
Proof.
  intros Hid Hup. unfold verify_property, try_catch, bind, lift.
  by rewrite Hid, (db_updateOne_run properties _ _ _ _ _ Hup).
Qed.

Lemma reject_property_run (st : store) (id : string) (i : oid)
    (res : UpdateResult) (c : list document) :
  ObjectId id = Return i →
  updateOne (by_id i) (set_status "rejected") (propertiesCollection st)
    = (Return res, c) →
  reject_property id st = (Return (send (Updated res)), set_docs properties c st).
Proof.
  intros Hid Hup. unfold reject_property, try_catch, bind, lift.
  by rewrite Hid, (db_updateOne_run properties _ _ _ _ _ Hup).
Qed.

Lemma advertise_property_run (st : store) (id : string) (i : oid)
    (res : UpdateResult) (c : list document) :
  ObjectId id = Return i →
  updateOne (by_id i) {[ "advertise" := VBool true ]} (propertiesCollection st)
    = (Return res, c) →
  advertise_property id st
  = (Return (send (Updated res)), set_docs properties c st).
Proof.
  intros Hid Hup. unfold advertise_property, bind, lift.
  by rewrite Hid, (db_updateOne_run properties _ _ _ _ _ Hup).
Qed.

Lemma zero_eqb (n : nat) : n = 0 → Nat.eqb n 0 = true.
Proof. by intros ->. Qed.

(** C3, as the code has it.  With a well-formed id:
    - the routes that test the modify count ([PUT /properties/:id],
      [PATCH /offers/reject/:id], [PATCH /offers/:id], and
      [PATCH /offers/accept/:id] once the offer was found) answer 404
      when the update modified nothing, also when the document exists
      and the payload leaves it as it is;
    - the user routes ([PATCH /users/admin|agent|fraud/:id]) test the
      match count: 404 when nothing matched, success when a user has the
      id, whether or not the update changed it;
    - the property status routes ([PATCH /properties/verify|reject|
      advertise/:id]) send the update result with status 200 whatever
      its counts. *)
Theorem update_not_found (st : store) (id : string) (i : oid) :
  ObjectId id = Return i →
  (∀ propertyData res c,
     updateOne (by_id i) propertyData (propertiesCollection st)
       = (Return res, c) →
     modifiedCount res = 0 →
     ∃ r, put_property id propertyData st = (Return r, set_docs properties c st)
          ∧ NotFound r)
  ∧ (∀ res c,
       updateOne (by_id i) (set_status "rejected") (offersCollection st)
         = (Return res, c) →
       modifiedCount res = 0 →
       ∃ r, reject_offer id st = (Return r, set_docs offers c st)
            ∧ NotFound r)
  ∧ (∀ transactionId res c,
       updateOne (by_id i)
         (<["transactionId" := bson transactionId]> (set_status "bought"))
         (offersCollection st) = (Return res, c) →
       modifiedCount res = 0 →
       ∃ r, mark_bought id transactionId st = (Return r, set_docs offers c st)
            ∧ NotFound r)
  ∧ (∀ o res c,
       findOne (by_id i) (offersCollection st) = Some o →
       updateOne (by_id i) (set_status "accepted") (offersCollection st)
         = (Return res, c) →
       modifiedCount res = 0 →
       ∃ r st', accept_offer id st = (Return r, st') ∧ NotFound r)
  ∧ (∀ o propertyData,
       unique_ids (propertiesCollection st) → o ∈ propertiesCollection st →
       o !! "_id" = Some (VId i) → apply_set propertyData o = o →
       ∃ r, put_property id propertyData st = (Return r, st) ∧ NotFound r)
  ∧ (∀ upd done res c,
       updateOne (by_id i) upd (usersCollection st) = (Return res, c) →
       ∃ r, patch_user upd done id st = (Return r, set_docs users c st)
            ∧ (matchedCount res = 0 → NotFound r)
            ∧ (matchedCount res ≠ 0 → Success r))
  ∧ (∀ o, o ∈ usersCollection st → o !! "_id" = Some (VId i) →
          ∃ r1 r2 r3 s1 s2 s3,
            make_admin id st = (Return r1, s1) ∧ Success r1
            ∧ make_agent id st = (Return r2, s2) ∧ Success r2
            ∧ mark_fraud id st = (Return r3, s3) ∧ Success r3)
  ∧ (∀ res c,
       updateOne (by_id i) (set_status "verified") (propertiesCollection st)
         = (Return res, c) →
       verify_property id st
       = (Return (send (Updated res)), set_docs properties c st))
  ∧ (∀ res c,
       updateOne (by_id i) (set_status "rejected") (propertiesCollection st)
         = (Return res, c) →
       reject_property id st
       = (Return (send (Updated res)), set_docs properties c st))
  ∧ (∀ res c,
       updateOne (by_id i) {[ "advertise" := VBool true ]}
         (propertiesCollection st) = (Return res, c) →
       advertise_property id st
       = (Return (send (Updated res)), set_docs properties c st)).
Proof.
  intros Hid. repeat split.
  - intros propertyData res c Hup H0.
    rewrite (put_property_run st id i propertyData res c Hid Hup).
    rewrite (zero_eqb _ H0). eexists. split; reflexivity.
  - intros res c Hup H0. rewrite (reject_offer_run st id i res c Hid Hup).
    rewrite (zero_eqb _ H0). eexists. split; reflexivity.
  - intros transactionId res c Hup H0.
    rewrite (mark_bought_run st id i transactionId res c Hid Hup).
    rewrite (zero_eqb _ H0). eexists. split; reflexivity.
  - intros o res c Hfind Hup H0.
    destruct (accept_offer_found_run st id i o res c Hid Hfind Hup)
      as [st' Hrun].
    rewrite Hrun, (zero_eqb _ H0). eexists _, _. split; reflexivity.
  - intros o propertyData Hu Ho Hi Hsame.
    pose proof (updateOne_noop _ o i propertyData Hu Ho Hi Hsame) as Hup.
    rewrite (put_property_run st id i propertyData _ _ Hid Hup).
    change (set_docs properties (propertiesCollection st) st)
      with (set_docs properties (docs properties st) st).
    rewrite set_docs_same. eexists. split; reflexivity.
  - intros upd done res c Hup.
    rewrite (patch_user_run upd done st id i res c Hid Hup).
    eexists. split; [reflexivity|].
    destruct (matchedCount res); simpl; split; intros H; try done.
    by left.
  - intros o Ho Hi.
    assert (Hex : ∃ d, d ∈ usersCollection st ∧ by_id i d = true).
    { exists o. split; [done|]. by apply by_id_of. }
    destruct (updateOne_returns (by_id i) {[ "role" := VStr "admin" ]}
                (usersCollection st)) as (r1 & c1 & Hu1 & Hm1); [done|].
    destruct (updateOne_returns (by_id i) {[ "role" := VStr "agent" ]}
                (usersCollection st)) as (r2 & c2 & Hu2 & Hm2); [done|].
    destruct (updateOne_returns (by_id i) {[ "fraud" := VBool true ]}
                (usersCollection st)) as (r3 & c3 & Hu3 & Hm3); [done|].
    unfold make_admin, make_agent, mark_fraud.
    rewrite (patch_user_run _ _ st id i r1 c1 Hid Hu1).
    rewrite (patch_user_run _ _ st id i r2 c2 Hid Hu2).
    rewrite (patch_user_run _ _ st id i r3 c3 Hid Hu3).
    rewrite (Hm1 Hex), (Hm2 Hex), (Hm3 Hex). simpl.
    eexists _, _, _, _, _, _. repeat split; by left.
  - intros res c Hup. by apply (verify_property_run st id i).
  - intros res c Hup. by apply (reject_property_run st id i).
  - intros res c Hup. by apply (advertise_property_run st id i).
Qed.

Lemma update_not_found_witness :
  (∃ r, put_property id1 {[ "title" := VStr "P" ]} market = (Return r, market)
        ∧ status r = 404)
  ∧ (∃ r st', make_admin id1 market = (Return r, st') ∧ Success r).
Proof.
  destruct (update_not_found market id1 1%N)
    as (_ & _ & _ & _ & Hput & _ & Huser & _); [vm_compute; reflexivity|].
  split.
  - apply (Hput {[ "_id" := VId 1%N; "title" := VStr "P";
                   "status" := VStr "verified" ]}).
    + decided.
    + decided.
    + vm_compute. reflexivity.
    + apply (bool_decide_unpack _). vm_compute. reflexivity.
  - destruct (Huser (user 1%N "root@estate.hub" "admin"))
      as (r1 & _ & _ & s1 & _ & _ & Hrun & Hok & _).
    + decided.
    + vm_compute. reflexivity.
    + exists r1, s1. split; [exact Hrun | exact Hok].
Defined.

(** C3, as stated, fails on the user routes: the first user of the
    example already is an admin, so promoting that user modifies no
    document, and the route answers with a success. *)
Lemma make_admin_noop_success :
  updateOne (by_id 1%N) {[ "role" := VStr "admin" ]} (usersCollection market)
    = (Return {| matchedCount := 1; modifiedCount := 0 |},
       usersCollection market)
  ∧ ∃ r, make_admin id1 market = (Return r, market)
         ∧ Success r ∧ ¬ NotFound r.
Proof.
  split; [vm_compute; reflexivity|].
  eexists. split; [vm_compute; reflexivity|]. split; [by left | done].
Qed.

(** * Authorization guards *)

Lemma verifyRole_decision (required message : string) (decoded : document)
    (st : store) :
  verifyRole required message decoded st
  = if decide (stored_role decoded st = Some (VStr required))
    then Next ()
    else Respond (status_send 403 (Message message)).
Proof.
  unfold verifyRole, stored_role.
  destruct (decide (role_of (findOne (by_field "email" (decoded !! "email"))
                               (usersCollection st))
                    = Some (VStr required))) as [H|H].
  - by rewrite bool_decide_eq_false_2 by (intros Hn; by apply Hn).
  - by rewrite bool_decide_eq_true_2.
Qed.

(** C8.  Two sets of verified claims with the same email get the same
    decision from each guard in the same store, whatever else the claims
    say, their role claim included; a guard answers 403 whenever the
    role stored for that email is not the one it requires (also when
    no user has the email), and lets the request through when it is. *)
Theorem guards_read_stored_role (st : store) (decoded1 decoded2 : document) :
  decoded1 !! "email" = decoded2 !! "email" →
  verifyAdmin decoded1 st = verifyAdmin decoded2 st
  ∧ verifyAgent decoded1 st = verifyAgent decoded2 st
  ∧ (stored_role decoded1 st ≠ Some (VStr "admin") →
     ∃ r, verifyAdmin decoded1 st = Respond r ∧ Forbidden r)
  ∧ (stored_role decoded1 st ≠ Some (VStr "agent") →
     ∃ r, verifyAgent decoded1 st = Respond r ∧ Forbidden r)
  ∧ (stored_role decoded1 st = Some (VStr "admin") →
     verifyAdmin decoded1 st = Next ())
  ∧ (stored_role decoded1 st = Some (VStr "agent") →
     verifyAgent decoded1 st = Next ()).
Proof.
  intros Hemail. unfold verifyAdmin, verifyAgent.
  rewrite !verifyRole_decision.
  assert (Hsame : stored_role decoded1 st = stored_role decoded2 st)
    by (unfold stored_role; by rewrite Hemail).
  rewrite <- Hsame. repeat split.
  - intros H. rewrite decide_False by done. eexists. split; reflexivity.
  - intros H. rewrite decide_False by done. eexists. split; reflexivity.
  - intros H. by rewrite decide_True.
  - intros H. by rewrite decide_True.
Qed.

Lemma guards_read_stored_role_witness :
  verifyAdmin {[ "email" := VStr "root@estate.hub"; "role" := VStr "user" ]}
    market
  = verifyAdmin {[ "email" := VStr "root@estate.hub"; "role" := VStr "admin" ]}
      market
  ∧ ∃ r, verifyAgent
           {[ "email" := VStr "root@estate.hub"; "role" := VStr "agent" ]} market
         = Respond r ∧ status r = 403.
Proof.
  split.
  - apply (guards_read_stored_role market). vm_compute. reflexivity.
  - destruct (guards_read_stored_role market
                {[ "email" := VStr "root@estate.hub"; "role" := VStr "agent" ]}
                {[ "email" := VStr "root@estate.hub"; "role" := VStr "agent" ]}
                eq_refl) as (_ & _ & _ & Hagent & _).
    apply Hagent. vm_compute. discriminate.
Defined.

(** * Token service *)

Lemma split_no_sep (sep : ascii) (s : string) :
  mentions sep s = false → split sep s = [s].
Proof.
  induction s as [|c s IH]; [done|]. simpl. intros H.
  apply orb_false_iff in H as [Hc Hs]. by rewrite Hc, IH.
Qed.

Lemma bearer_token (token : string) :
  mentions " " token = false →
  split " " ("Bearer " ++ token) !! 1%nat = Some token.
Proof.
  intros H.
  change (split " " ("Bearer " ++ token)) with ("Bearer" :: split " " token).
  by rewrite (split_no_sep _ _ H).
Qed.

Lemma object_of_email_role (email role : option value) (e : value) :
  email = Some e →
  object_of [("email", email); ("role", role)] !! "email" = Some e
  ∧ object_of [("email", email); ("role", role)] !! "role" = role.
Proof.
  intros ->. simpl. split.
  - by rewrite lookup_insert_eq.
  - rewrite lookup_insert_ne by done.
    destruct role; [by rewrite lookup_insert_eq | done].
Qed.

Section token_service.
Context `{JsonWebTokenLaws}.

(** With a secret configured [jwt_sign] issues a token; without one it
    throws. *)
Lemma jwt_sign_issues (payload : document) (secret : string) (now : Z) :
  secret ≠ "" →
  jwt_sign payload secret now
  = Return (jwt_encode
              (<["exp" := VNum (now + expiresIn)]>
                 (<["iat" := VNum now]> payload),
               hmac secret
                 (<["exp" := VNum (now + expiresIn)]>
                    (<["iat" := VNum now]> payload)))).
Proof.
  intros Hs. unfold jwt_sign.
  by rewrite (proj2 (String.eqb_neq _ _) Hs).
Qed.

Lemma jwt_sign_without_secret (payload : document) (now : Z) :
  jwt_sign payload "" now = Throw "secretOrPrivateKey must have a value".
Proof. reflexivity. Qed.

(** Verifying what [jwt_sign] issued: the claims come back until the
    clock reaches the expiry, and the token is refused from then on. *)
Lemma jwt_verify_sign (payload : document) (secret token : string)
    (now now' : Z) :
  jwt_sign payload secret now = Return token →
  jwt_verify (Some token) secret now'
  = if (now + expiresIn <=? now')%Z then Throw "jwt expired"
    else Return (<["exp" := VNum (now + expiresIn)]>
                   (<["iat" := VNum now]> payload)).
Proof.
  unfold jwt_verify, jwt_sign.
  destruct (String.eqb secret "") eqn:Hs; [done|].
  intros [= <-].
  rewrite (proj2 (String.eqb_neq _ _) (jwt_encode_nonempty _)).
  rewrite jwt_decode_encode, String.eqb_refl. simpl negb. cbv iota.
  by rewrite lookup_insert_eq.
Qed.

(** What [jwt_sign] issued holds no blank. *)
Lemma jwt_sign_no_space (payload : document) (secret token : string)
    (now : Z) :
  jwt_sign payload secret now = Return token → mentions " " token = false.
Proof.
  unfold jwt_sign. destruct (String.eqb secret ""); [done|].
  intros [= <-]. apply jwt_encode_no_space.
Qed.

(** [POST /jwt] for a body with a truthy email: the token is what
    [jwt_sign] makes of email and role, and what [jwt_sign] throws
    leaves the handler. *)
Lemma post_jwt_run (JWT_SECRET : string) (user : document) (now : Z) :
  truthy (user !! "email") = true →
  post_jwt JWT_SECRET (Some user) now
  = match jwt_sign
            (object_of [("email", user !! "email"); ("role", user !! "role")])
            JWT_SECRET now with
    | Return token => Return (send (TokenBody token))
    | Throw e => Throw e
    end.
Proof. intros Ht. unfold post_jwt. by rewrite Ht. Qed.

(** C4.  With a secret configured, a token issued for an identity [e]
    and a role [r] (the role may be absent) verifies, before thirty days
    have passed on the clock, to claims with email [e] and role [r];
    from the thirtieth day on it is refused with 403.  A token is issued
    when the email is truthy. *)
Theorem token_round_trip (JWT_SECRET : string) (user : document) (e : value)
    (now now' : Z) :
  JWT_SECRET ≠ "" →
  user !! "email" = Some e → truthy (Some e) = true →
  ∃ token,
    post_jwt JWT_SECRET (Some user) now = Return (send (TokenBody token))
    ∧ ((now' < now + 30 * 24 * 60 * 60)%Z →
       ∃ decoded,
         verifyToken JWT_SECRET (Some ("Bearer " ++ token)) now'
           = Next decoded
         ∧ decoded !! "email" = Some e
         ∧ decoded !! "role" = user !! "role")
    ∧ ((now + 30 * 24 * 60 * 60 ≤ now')%Z →
       ∃ r,
         verifyToken JWT_SECRET (Some ("Bearer " ++ token)) now'
           = Respond r
         ∧ Forbidden r).
Proof.
  intros Hs He Ht.
  destruct (object_of_email_role (user !! "email") (user !! "role") e He)
    as [Hemail Hrole].
  pose proof (jwt_sign_issues
                (object_of [("email", user !! "email");
                            ("role", user !! "role")]) JWT_SECRET now Hs)
    as Hsign.
  eexists. split.
  { rewrite post_jwt_run by (by rewrite He). rewrite Hsign. reflexivity. }
  assert (Hv : ∀ t token,
    jwt_sign (object_of [("email", user !! "email");
                         ("role", user !! "role")]) JWT_SECRET now
      = Return token →
    verifyToken JWT_SECRET (Some ("Bearer " ++ token)) t
    = match jwt_verify (Some token) JWT_SECRET t with
      | Throw _ => Respond (status_send 403 (Message "Forbidden"))
      | Return decoded => Next decoded
      end).
  { intros t token Htoken. unfold verifyToken.
    change (String.eqb ("Bearer " ++ ?x) "") with false. cbv iota.
    rewrite bearer_token; [done|]. by eapply jwt_sign_no_space. }
  split.
  - intros Hlt. rewrite (Hv _ _ Hsign), (jwt_verify_sign _ _ _ _ _ Hsign).
    replace (now + expiresIn <=? now')%Z with false
      by (symmetry; apply Z.leb_gt; unfold expiresIn; lia).
    eexists. split; [reflexivity|].
    by rewrite !lookup_insert_ne by done.
  - intros Hge. rewrite (Hv _ _ Hsign), (jwt_verify_sign _ _ _ _ _ Hsign).
    replace (now + expiresIn <=? now')%Z with true
      by (symmetry; apply Z.leb_le; unfold expiresIn; lia).
    eexists. split; reflexivity.
Qed.

(** Without a secret no token is issued: the exception of [jwt.sign]
    leaves the handler. *)
Lemma post_jwt_without_secret (user : document) (now : Z) :
  truthy (user !! "email") = true →
  post_jwt "" (Some user) now = Throw "secretOrPrivateKey must have a value".
Proof. intros Ht. by rewrite post_jwt_run. Qed.
End token_service.

Lemma undigits_digits (p : positive) : undigits (digits p) = Some p.
Proof. induction p as [p IH|p IH|]; simpl; by rewrite ?IH. Qed.

Lemma digits_nonempty (p : positive) : digits p ≠ "".
Proof. by destruct p. Qed.

Lemma digits_no_space (p : positive) : mentions " " (digits p) = false.
Proof. induction p as [p IH|p IH|]; simpl; by rewrite ?IH. Qed.

#[global] Instance digits_jwt_laws : JsonWebTokenLaws.
Proof.
  split; simpl.
  - intros t. rewrite undigits_digits. simpl. apply decode_encode.
  - intros t. apply digits_nonempty.
  - intros t. apply digits_no_space.
Qed.

Lemma token_round_trip_witness :
  ∃ token decoded,
    post_jwt "secret"
      (Some {[ "email" := VStr "ann@estate.hub"; "role" := VStr "agent" ]}) 0
      = Return (send (TokenBody token))
    ∧ verifyToken "secret" (Some ("Bearer " ++ token)) 86400 = Next decoded
    ∧ decoded !! "email" = Some (VStr "ann@estate.hub")
    ∧ decoded !! "role" = Some (VStr "agent").
Proof.
  destruct (token_round_trip "secret"
              {[ "email" := VStr "ann@estate.hub"; "role" := VStr "agent" ]}
              (VStr "ann@estate.hub") 0 86400)
    as (token & Hissue & Hbefore & _).
  - discriminate.
  - vm_compute. reflexivity.
  - reflexivity.
  - destruct Hbefore as (decoded & Hv & Hemail & Hrole); [lia|].
    exists token, decoded. split; [exact Hissue|]. split; [exact Hv|].
    split; [exact Hemail|]. rewrite Hrole. vm_compute. reflexivity.
Defined.

(** * Payment *)







(** * Sorting *)

Lemma ascii_compare_trans (a b c : ascii) :
  Ascii.compare a b ≠ Gt → Ascii.compare b c ≠ Gt → Ascii.compare a c ≠ Gt.
Proof.
  unfold Ascii.compare. rewrite !N.compare_gt_iff. lia.
Qed.

Lemma string_compare_trans (s1 s2 s3 : string) :
  String.compare s1 s2 ≠ Gt → String.compare s2 s3 ≠ Gt →
  String.compare s1 s3 ≠ Gt.
Proof.
  revert s2 s3. induction s1 as [|a s1 IH]; intros [|b s2] [|c s3]; simpl;
    try done.
  destruct (Ascii.compare a b) eqn:Hab; [| |done].
  - apply Ascii.compare_eq_iff in Hab as ->.
    destruct (Ascii.compare b c); try done. apply IH.
  - intros _. destruct (Ascii.compare b c) eqn:Hbc; [| |done].
    + apply Ascii.compare_eq_iff in Hbc as <-. by rewrite Hab.
    + intros _. pose proof (ascii_compare_trans a b c) as H.
      rewrite Hab, Hbc in H.
      assert (Hlt : Ascii.compare a c = Lt).
      { unfold Ascii.compare in *. rewrite N.compare_lt_iff in *. lia. }
      by rewrite Hlt.
Qed.

Lemma value_le_total (a b : value) : value_le a b ∨ value_le b a.
Proof.
  unfold value_le, value_leb.
  destruct a as [|x|x|x|x], b as [|y|y|y|y]; simpl; auto.
  - destruct x, y; simpl; auto.
  - rewrite (Z.compare_antisym x y). destruct (x ?= y)%Z; simpl; auto.
  - rewrite (String.compare_antisym x y).
    destruct (String.compare y x); simpl; auto.
  - rewrite (N.compare_antisym x y). destruct (x ?= y)%N; simpl; auto.
Qed.

Lemma value_le_trans (a b c : value) :
  value_le a b → value_le b c → value_le a c.
Proof.
  unfold value_le, value_leb.
  destruct a as [|x|x|x|x], b as [|y|y|y|y], c as [|z|z|z|z]; simpl;
    try done.
  - by destruct x, y, z.
  - intros H1 H2.
    destruct (x ?= y)%Z eqn:Hxy; try done;
      destruct (y ?= z)%Z eqn:Hyz; try done;
      destruct (x ?= z)%Z eqn:Hxz; try done;
      rewrite ?Z.compare_eq_iff, ?Z.compare_lt_iff, ?Z.compare_gt_iff in *;
      lia.
  - intros H1 H2.
    pose proof (string_compare_trans x y z) as H.
    destruct (String.compare x y); try done;
      destruct (String.compare y z); try done;
      destruct (String.compare x z); try done; by exfalso; apply H.
  - intros H1 H2.
    destruct (x ?= y)%N eqn:Hxy; try done;
      destruct (y ?= z)%N eqn:Hyz; try done;
      destruct (x ?= z)%N eqn:Hxz; try done;
      rewrite ?N.compare_eq_iff, ?N.compare_lt_iff, ?N.compare_gt_iff in *;
      lia.
Qed.

Lemma insert_sorted_perm (le : document → document → bool) (x : document)
    (l : list document) :
  insert_sorted le x l ≡ₚ x :: l.
Proof.
  induction l as [|y l IH]; simpl; [done|].
  destruct (le x y); [done|]. rewrite IH. apply Permutation_swap.
Qed.

Lemma sort_docs_perm (le : document → document → bool) (l : list document) :
  sort_docs le l ≡ₚ l.
Proof.
  induction l as [|x l IH]; simpl; [done|].
  unfold sort_docs in *. simpl. by rewrite insert_sorted_perm, IH.
Qed.

Section sorted.
Variable le : document → document → bool.
Hypothesis le_total : ∀ a b, le a b = true ∨ le b a = true.
Hypothesis le_trans : ∀ a b c, le a b = true → le b c = true → le a c = true.

Lemma insert_sorted_sorted (x : document) (l : list document) :
  StronglySorted (λ a b, le a b = true) l →
  StronglySorted (λ a b, le a b = true) (insert_sorted le x l).
Proof.
  induction 1 as [|y l Hs IH Hall]; simpl; [repeat constructor|].
  destruct (le x y) eqn:Hxy.
  - constructor; [by constructor|]. constructor; [done|].
    eapply Forall_impl; [exact Hall|]. intros z Hz. simpl in *. eauto.
  - constructor; [done|].
    rewrite (insert_sorted_perm le x l). constructor; [|done].
    destruct (le_total x y) as [H|H]; [congruence|done].
Qed.

Lemma sort_docs_sorted (l : list document) :
  StronglySorted (λ a b, le a b = true) (sort_docs le l).
Proof.
  induction l as [|x l IH]; [constructor|].
  unfold sort_docs in *. simpl. by apply insert_sorted_sorted.
Qed.
End sorted.

Lemma ascending_sorted (field : string) (l : list document) :
  StronglySorted (λ a b, value_le (sort_key field a) (sort_key field b))
    (sort_docs (ascending field) l).
Proof.
  apply (sort_docs_sorted (ascending field)).
  - intros a b. apply value_le_total.
  - intros a b c. apply value_le_trans.
Qed.

Lemma descending_sorted (field : string) (l : list document) :
  StronglySorted (λ a b, value_le (sort_key field b) (sort_key field a))
    (sort_docs (descending field) l).
Proof.
  apply (sort_docs_sorted (descending field)).
  - intros a b. apply value_le_total.
  - intros a b c H1 H2. unfold descending in *.
    by apply (value_le_trans _ (sort_key field b)).
Qed.

(** * Listings *)

Lemma find_all_elem (p : document → bool) (c : list document) (d : document) :
  d ∈ find_all p c ↔ d ∈ c ∧ p d = true.
Proof.
  unfold find_all. rewrite !list_elem_of_In, filter_In. done.
Qed.

Lemma find_all_stdpp (p : document → bool) (c : list document) :
  find_all p c = filter (λ d, p d = true) c.
Proof.
  unfold find_all. induction c as [|x c IH]; [done|]. simpl.
  rewrite filter_cons. destruct (p x) eqn:Hx.
  - rewrite decide_True by done. by rewrite IH.
  - rewrite decide_False by congruence. done.
Qed.

(** X1.  [GET /properties/verified] answers with exactly the properties
    whose status is [verified], each as often as it is stored, in
    ascending order of [minPrice] (a property without [minPrice] sorts
    as [null], before every number), and leaves the store as it is. *)
Theorem verified_listing (st : store) :
  ∃ listing,
    get_verified_properties st = (Return (send (Docs listing)), st)
    ∧ listing ≡ₚ filter (λ d, d !! "status" = Some (VStr "verified"))
                   (propertiesCollection st)
    ∧ StronglySorted
        (λ a b, value_le (sort_key "minPrice" a) (sort_key "minPrice" b))
        listing.
Proof.
  eexists. split; [reflexivity|]. split.
  - rewrite sort_docs_perm, find_all_stdpp. simpl.
    apply Permutation_refl'. apply list_filter_iff. intros d.
    unfold by_field, eq_match. simpl. by rewrite bool_decide_eq_true.
  - apply ascending_sorted.
Qed.

(** X2.  [GET /latest-reviews] answers with at most three reviews, all of
    them stored; together with the reviews it leaves out they are the
    stored reviews, and no review left out has a later [date] than one
    that is listed. *)
Theorem latest_reviews_listing (st : store) :
  ∃ listing rest,
    get_latest_reviews st = (Return (send (Docs listing)), st)
    ∧ length listing = Nat.min 3 (length (reviewsCollection st))
    ∧ (listing ++ rest)%list ≡ₚ reviewsCollection st
    ∧ ∀ x y, x ∈ listing → y ∈ rest →
             value_le (sort_key "date" y) (sort_key "date" x).
Proof.
  exists (take 3 (sort_docs (descending "date") (reviewsCollection st))),
         (drop 3 (sort_docs (descending "date") (reviewsCollection st))).
  assert (Hall : find_all every (reviewsCollection st) = reviewsCollection st).
  { unfold find_all. induction (reviewsCollection st) as [|x c IH]; [done|].
    simpl. by rewrite IH. }
  split.
  { unfold get_latest_reviews, try_catch, bind, db_find, ret, limit.
    cbn [docs]. by rewrite Hall. }
  split.
  { rewrite length_take. by rewrite (Permutation_length (sort_docs_perm _ _)). }
  split.
  { rewrite take_drop. apply sort_docs_perm. }
  intros x y Hx Hy.
  pose proof (descending_sorted "date" (reviewsCollection st)) as Hs.
  rewrite <- (take_drop 3 (sort_docs _ _)) in Hs.
  by apply (StronglySorted_app_1_elem_of _ _ _ x y) in Hs.
Qed.

(** * Registration and roles *)

Lemma findOne_app (p : document → bool) (c l : list document) :
  findOne p c = None → findOne p (c ++ l)%list = findOne p l.
Proof.
  unfold findOne. induction c as [|x c IH]; simpl; [done|].
  destruct (p x); [done | exact IH].
Qed.

Lemma findOne_fmap (p : document → bool) (f : document → document)
    (c : list document) :
  (∀ d, p (f d) = p d) → findOne p (f <$> c) = f <$> findOne p c.
Proof.
  intros Hp. unfold findOne. induction c as [|x c IH]; simpl; [done|].
  rewrite Hp. destruct (p x); [done | exact IH].
Qed.

Lemma NoDup_fmap_inj_on {A B} (f : A → B) (l : list A) (x y : A) :
  NoDup (f <$> l) → x ∈ l → y ∈ l → f x = f y → x = y.
Proof.
  induction l as [|z l IH]; intros Hnd Hx Hy Heq.
  - by apply elem_of_nil in Hx.
  - rewrite fmap_cons in Hnd. apply list.NoDup_cons in Hnd as [Hz Hnd].
    apply elem_of_cons in Hx as [->|Hx]; apply elem_of_cons in Hy as [->|Hy];
      try done.
    + exfalso. apply Hz. rewrite Heq. by apply list_elem_of_fmap_2.
    + exfalso. apply Hz. rewrite <- Heq. by apply list_elem_of_fmap_2.
    + by apply IH.
Qed.

Lemma by_field_spec (field : string) (x : option value) (d : document) :
  by_field field x d = true ↔ bson (d !! field) = bson x.
Proof. unfold by_field. by rewrite eq_match_bson, bool_decide_eq_true. Qed.

(** With unique emails the guards' lookup finds the one user that has
    the email. *)
Lemma findOne_by_email (c : list document) (u : document) (x : option value) :
  unique_emails c → u ∈ c → bson x = bson (u !! "email") →
  findOne (by_field "email" x) c = Some u.
Proof.
  intros Hu Hin Hx. destruct (findOne (by_field "email" x) c) as [d|] eqn:Hf.
  - apply findOne_some in Hf as [Hd Hb]. apply by_field_spec in Hb.
    f_equal. apply (NoDup_fmap_inj_on _ c d u Hu Hd Hin). congruence.
  - rewrite findOne_none in Hf. specialize (Hf u Hin).
    assert (by_field "email" x u = true) by (by apply by_field_spec).
    congruence.
Qed.

(** What [POST /users] does, by the cases of its lookup and of the
    insertion. *)
Lemma post_users_run (user : document) (st : store) :
  post_users user st
  = match findOne (by_field "email" (user !! "email")) (usersCollection st) with
    | Some _ => (Return (status_send 400 (Message "User already exists")), st)
    | None =>
        match insertOne user (usersCollection st) with
        | (Return result, c) =>
            (Return (send (Inserted result)), set_docs users c st)
        | (Throw _, c) =>
            (Return (status_send 500 (Message "Failed to save user")),
             set_docs users c st)
        end
    end.
Proof.
  unfold post_users, try_catch, bind, db_findOne, db_insertOne, on_collection.
  cbn [docs].
  destruct (findOne _ (usersCollection st)); [reflexivity|].
  by destruct (insertOne user (usersCollection st)) as [[result|e] c].
Qed.

(** A successful registration appends the body, with an [_id] added
    when it had none, to a collection where nobody had the email. *)
Lemma post_users_success (user : document) (st st' : store) (r : response) :
  post_users user st = (Return r, st') → Success r →
  findOne (by_field "email" (user !! "email")) (usersCollection st) = None
  ∧ ∃ u, usersCollection st' = (usersCollection st ++ [u])%list
         ∧ (∀ k, k ≠ "_id" → u !! k = user !! k)
         ∧ is_Some (u !! "_id").
Proof.
  rewrite post_users_run. intros Hrun Hok.
  destruct (findOne _ (usersCollection st)) eqn:Hf.
  { injection Hrun as <- <-. by destruct Hok. }
  split; [done|]. unfold insertOne in Hrun.
  destruct (own_id user) as [v|] eqn:Hid.
  - apply own_id_some in Hid as [Hid _]. destruct (existsb _ _).
    + injection Hrun as <- <-. by destruct Hok.
    + injection Hrun as <- <-. exists user. by repeat split.
  - injection Hrun as <- <-. eexists. split; [reflexivity|]. split.
    + intros k Hk. by rewrite lookup_insert_ne.
    + by rewrite lookup_insert_eq.
Qed.

Lemma get_user_run (email : string) (st : store) :
  get_user email st
  = (Return match findOne (by_field "email" (Some (VStr email)))
                    (usersCollection st) with
            | None => status_send 404 (Message "User not found")
            | Some u => send (Doc u)
            end, st).
Proof.
  unfold get_user, try_catch, bind, db_findOne. cbn [docs].
  by destruct (findOne _ (usersCollection st)).
Qed.

(** X3.  Registration and lookup round trip: when [POST /users] succeeds
    for a body with email [e], [GET /users/e] answered 404 before and
    answers afterwards with the stored record, which is the body as
    submitted plus its [_id]. *)
Theorem register_then_lookup (user : document) (e : string) (st st' : store)
    (r : response) :
  user !! "email" = Some (VStr e) →
  post_users user st = (Return r, st') → Success r →
  (∃ r0, get_user e st = (Return r0, st) ∧ NotFound r0)
  ∧ ∃ u, get_user e st' = (Return (send (Doc u)), st')
         ∧ u ∈ usersCollection st'
         ∧ (∀ k, k ≠ "_id" → u !! k = user !! k)
         ∧ is_Some (u !! "_id").
Proof.
  intros He Hrun Hok.
  destruct (post_users_success user st st' r Hrun Hok)
    as (Hnone & u & Hst' & Hu & Hid).
  rewrite He in Hnone. rewrite !get_user_run, Hnone. split.
  { eexists. split; reflexivity. }
  exists u. rewrite Hst', (findOne_app _ _ _ Hnone). unfold findOne. simpl.
  assert (Hm : by_field "email" (Some (VStr e)) u = true).
  { apply by_field_spec. by rewrite (Hu "email"), He. }
  rewrite Hm. repeat split; try done. set_solver.
Qed.

Lemma register_then_lookup_witness :
  ∃ u, get_user "kim@mail"
         (snd (post_users {[ "email" := VStr "kim@mail"; "role" := VStr "user" ]}
                 market))
       = (Return (send (Doc u)),
          snd (post_users {[ "email" := VStr "kim@mail"; "role" := VStr "user" ]}
                 market))
       ∧ u !! "role" = Some (VStr "user").
Proof.
  destruct (register_then_lookup
              {[ "email" := VStr "kim@mail"; "role" := VStr "user" ]} "kim@mail"
              market
              (snd (post_users
                      {[ "email" := VStr "kim@mail"; "role" := VStr "user" ]}
                      market))
              (send (Inserted {| insertedId := VId 3%N |})))
    as (_ & u & Hget & _ & Hu & _).
  - vm_compute. reflexivity.
  - vm_compute. reflexivity.
  - left. reflexivity.
  - exists u. split; [exact Hget|]. rewrite (Hu "role") by done.
    vm_compute. reflexivity.
Defined.

(** X4.  The role is stored as submitted: after a successful
    [POST /users] the role the guards read for that email is the role of
    the request body, so a body that says [admin] passes the admin
    guard. *)
Theorem registered_role_is_submitted (user decoded : document) (e : string)
    (st st' : store) (r : response) :
  user !! "email" = Some (VStr e) →
  post_users user st = (Return r, st') → Success r →
  decoded !! "email" = Some (VStr e) →
  stored_role decoded st' = user !! "role"
  ∧ (user !! "role" = Some (VStr "admin") → verifyAdmin decoded st' = Next ())
  ∧ (user !! "role" = Some (VStr "agent") → verifyAgent decoded st' = Next ()).
Proof.
  intros He Hrun Hok Hd.
  destruct (post_users_success user st st' r Hrun Hok)
    as (Hnone & u & Hst' & Hu & Hid).
  rewrite He in Hnone.
  assert (Hrole : stored_role decoded st' = user !! "role").
  { unfold stored_role. rewrite Hd, Hst', (findOne_app _ _ _ Hnone).
    unfold findOne. simpl.
    assert (Hm : by_field "email" (Some (VStr e)) u = true).
    { apply by_field_spec. by rewrite (Hu "email"), He. }
    rewrite Hm. simpl. by apply Hu. }
  split; [done|]. unfold verifyAdmin, verifyAgent.
  rewrite !verifyRole_decision, Hrole.
  split; intros ->; by rewrite decide_True.
Qed.

Lemma registered_role_is_submitted_witness :
  verifyAdmin {[ "email" := VStr "kim@mail" ]}
    (snd (post_users {[ "email" := VStr "kim@mail"; "role" := VStr "admin" ]}
            market))
  = Next ().
Proof.
  destruct (registered_role_is_submitted
              {[ "email" := VStr "kim@mail"; "role" := VStr "admin" ]}
              {[ "email" := VStr "kim@mail" ]} "kim@mail" market
              (snd (post_users
                      {[ "email" := VStr "kim@mail"; "role" := VStr "admin" ]}
                      market))
              (send (Inserted {| insertedId := VId 3%N |})))
    as (_ & Hadmin & _).
  - vm_compute. reflexivity.
  - vm_compute. reflexivity.
  - left. reflexivity.
  - vm_compute. reflexivity.
  - apply Hadmin. vm_compute. reflexivity.
Defined.

(** X5.  A role change takes effect at once: after [PATCH
    /users/agent/:id] on a stored user, claims with that user's email
    pass the agent guard and are refused by the admin guard, whatever
    the token they come from says; after [PATCH /users/admin/:id] it is
    the other way round.  Emails and ids are unique in the users
    collection. *)
Theorem role_change_is_immediate (st : store) (u decoded : document)
    (i : oid) (id : string) :
  unique_ids (usersCollection st) → unique_emails (usersCollection st) →
  u ∈ usersCollection st → u !! "_id" = Some (VId i) →
  ObjectId id = Return i → decoded !! "email" = u !! "email" →
  (∃ r st', make_agent id st = (Return r, st') ∧ Success r
            ∧ verifyAgent decoded st' = Next ()
            ∧ ∃ r', verifyAdmin decoded st' = Respond r' ∧ Forbidden r')
  ∧ (∃ r st', make_admin id st = (Return r, st') ∧ Success r
              ∧ verifyAdmin decoded st' = Next ()
              ∧ ∃ r', verifyAgent decoded st' = Respond r' ∧ Forbidden r').
Proof.
  intros Hids Hemails Hu Hi Hid Hd.
  assert (Hrole : ∀ role done,
    ∃ st', patch_user {[ "role" := VStr role ]} done id st
           = (Return (send (SuccessMessage true done)), st')
           ∧ stored_role decoded st' = Some (VStr role)).
  { intros role done.
    pose proof (updateOne_by_id _ u i {[ "role" := VStr role ]}
                  Hids Hu Hi eq_refl) as Hup.
    rewrite (patch_user_run _ done st id i _ _ Hid Hup).
    eexists. split; [reflexivity|].
    unfold stored_role. cbn [usersCollection set_docs].
    rewrite findOne_fmap.
    - rewrite (findOne_by_email _ u) by (done || by rewrite Hd).
      simpl. rewrite decide_True by done.
      rewrite apply_set_singleton. by rewrite lookup_insert_eq.
    - intros d. destruct (decide (d = u)); [|done].
      rewrite apply_set_singleton. unfold by_field.
      by rewrite lookup_insert_ne. }
  unfold make_agent, make_admin, verifyAdmin, verifyAgent.
  split.
  - destruct (Hrole "agent" "User promoted to agent") as (st' & Hrun & Hr).
    eexists _, st'. split; [exact Hrun|]. split; [by left|].
    rewrite !verifyRole_decision, Hr. split; [by rewrite decide_True|].
    rewrite decide_False by done. eexists. split; reflexivity.
  - destruct (Hrole "admin" "User promoted to admin") as (st' & Hrun & Hr).
    eexists _, st'. split; [exact Hrun|]. split; [by left|].
    rewrite !verifyRole_decision, Hr. split; [by rewrite decide_True|].
    rewrite decide_False by done. eexists. split; reflexivity.
Qed.

Lemma role_change_is_immediate_witness :
  ∃ r st', make_admin id2 market = (Return r, st')
           ∧ verifyAdmin {[ "email" := VStr "ann@estate.hub";
                            "role" := VStr "agent" ]} st' = Next ().
Proof.
  destruct (role_change_is_immediate market (user 2%N "ann@estate.hub" "agent")
              {[ "email" := VStr "ann@estate.hub"; "role" := VStr "agent" ]}
              2%N id2) as (_ & r & st' & Hrun & _ & Hadmin & _).
  - decided.
  - unfold unique_emails. decided.
  - decided.
  - vm_compute. reflexivity.
  - vm_compute. reflexivity.
  - vm_compute. reflexivity.
  - exists r, st'. split; [exact Hrun | exact Hadmin].
Defined.

(** * What every writing route keeps *)

Section keeps.
Variable I : store → Prop.

Lemma keeps_ret {A} (a : A) : keeps I (ret a).
Proof. by intros st. Qed.

Lemma keeps_throw {A} (e : string) : keeps I (throw (A := A) e).
Proof. by intros st. Qed.

Lemma keeps_lift {A} (o : outcome A) : keeps I (lift o).
Proof. by intros st. Qed.

Lemma keeps_bind {A B} (m : M A) (k : A → M B) :
  keeps I m → (∀ a, keeps I (k a)) → keeps I (bind m k).
Proof.
  intros Hm Hk st Hst. unfold bind. specialize (Hm st Hst).
  destruct (m st) as [[a|e] s]; simpl in *; [by apply Hk | done].
Qed.

Lemma keeps_try_catch {A} (m : M A) (h : string → M A) :
  keeps I m → (∀ e, keeps I (h e)) → keeps I (try_catch m h).
Proof.
  intros Hm Hh st Hst. unfold try_catch. specialize (Hm st Hst).
  destruct (m st) as [[a|e] s]; simpl in *; [done | by apply Hh].
Qed.

Lemma keeps_findOne (k : collection) (p : document → bool) :
  keeps I (db_findOne k p).
Proof. by intros st. Qed.

Lemma keeps_on_collection {A} (k : collection)
    (f : list document → outcome A * list document) :
  (∀ st, I st → I (set_docs k (snd (f (docs k st))) st)) →
  keeps I (on_collection k f).
Proof.
  intros H st Hst. unfold on_collection. specialize (H st Hst).
  by destruct (f (docs k st)).
Qed.
End keeps.

(** The structure of a handler: sequencing, [try]/[catch], branches. *)
Ltac keeps_structure :=
  repeat first
    [ apply keeps_try_catch | apply keeps_bind | apply keeps_ret
    | apply keeps_throw | apply keeps_lift | apply keeps_findOne
    | match goal with
      | |- keeps _ (if ?b then _ else _) => destruct b
      | |- keeps _ (match ?x with Some _ => _ | None => _ end) => destruct x
      | |- ∀ _, _ => intro; cbv beta
      end ].

Lemma apply_set_id (upd d : document) :
  id_clash upd d = false → apply_set upd d !! "_id" = d !! "_id".
Proof.
  unfold id_clash, apply_set. destruct (upd !! "_id") as [v|] eqn:Hv.
  - intros H. apply negb_false_iff, bool_decide_eq_true in H.
    by rewrite H, (lookup_union_Some_l upd d "_id" v Hv).
  - intros _. by rewrite lookup_union_r.
Qed.

(** No update changes an [_id]. *)
Lemma updateOne_ids (p : document → bool) (upd : document)
    (c : list document) :
  (λ d : document, d !! "_id") <$> snd (updateOne p upd c)
  = (λ d : document, d !! "_id") <$> c.
Proof.
  induction c as [|x c IH]; [done|]. simpl. destruct (p x).
  - destruct (id_clash upd x) eqn:Hc; [done|]. cbn [snd].
    by rewrite !fmap_cons, apply_set_id.
  - destruct (updateOne p upd c) as [r c']. cbn [snd] in *.
    by rewrite !fmap_cons, IH.
Qed.

Lemma updateMany_ids (p : document → bool) (upd : document)
    (c : list document) :
  (λ d : document, d !! "_id") <$> snd (updateMany p upd c)
  = (λ d : document, d !! "_id") <$> c.
Proof.
  induction c as [|x c IH]; [done|]. simpl. destruct (p x).
  - destruct (id_clash upd x) eqn:Hc; [done|].
    destruct (updateMany p upd c) as [r c']. cbn [snd] in *.
    by rewrite !fmap_cons, apply_set_id, IH.
  - destruct (updateMany p upd c) as [r c']. cbn [snd] in *.
    by rewrite !fmap_cons, IH.
Qed.

(** An update that does not name a field leaves it in every
    document. *)
Lemma updateOne_field (field : string) (p : document → bool)
    (upd : document) (c : list document) :
  upd !! field = None →
  (λ d : document, d !! field) <$> snd (updateOne p upd c)
  = (λ d : document, d !! field) <$> c.
Proof.
  intros Hf. induction c as [|x c IH]; [done|]. simpl. destruct (p x).
  - destruct (id_clash upd x); [done|]. cbn [snd]. unfold apply_set.
    by rewrite !fmap_cons, lookup_union_r.
  - destruct (updateOne p upd c) as [r c']. cbn [snd] in *.
    by rewrite !fmap_cons, IH.
Qed.

Lemma updateMany_field (field : string) (p : document → bool)
    (upd : document) (c : list document) :
  upd !! field = None →
  (λ d : document, d !! field) <$> snd (updateMany p upd c)
  = (λ d : document, d !! field) <$> c.
Proof.
  intros Hf. induction c as [|x c IH]; [done|]. simpl. destruct (p x).
  - destruct (id_clash upd x); [done|].
    destruct (updateMany p upd c) as [r c']. cbn [snd] in *. unfold apply_set.
    by rewrite !fmap_cons, lookup_union_r, IH.
  - destruct (updateMany p upd c) as [r c']. cbn [snd] in *.
    by rewrite !fmap_cons, IH.
Qed.

Lemma deleteOne_sublist (p : document → bool) (c : list document) :
  snd (deleteOne p c) `sublist_of` c.
Proof.
  induction c as [|x c IH]; [done|]. simpl. destruct (p x).
  - by apply sublist_cons.
  - destruct (deleteOne p c) as [r c']. simpl in *. by apply sublist_skip.
Qed.

Lemma fresh_oid_above (c : list document) (d : document) (o : oid) :
  d ∈ c → d !! "_id" = Some (VId o) → (o < fresh_oid c)%N.
Proof.
  unfold fresh_oid. induction c as [|x c IH]; intros Hd Ho.
  - by apply elem_of_nil in Hd.
  - simpl. apply elem_of_cons in Hd as [->|Hd].
    + rewrite Ho. lia.
    + specialize (IH Hd Ho). destruct (x !! "_id") as [[]|]; lia.
Qed.

Lemma id_taken_spec (doc : document) (c : list document) (v : value) :
  own_id doc = Some v →
  existsb (λ d : document, bool_decide (d !! "_id" = Some v)) c = true
  ↔ id_taken doc c.
Proof.
  intros Hv. rewrite existsb_exists. unfold id_taken. split.
  - intros (d & Hd & Hb). apply bool_decide_eq_true in Hb.
    exists v, d. by rewrite <- list_elem_of_In in Hd.
  - intros (w & d & Hw & Hd & Hb). exists d. rewrite <- list_elem_of_In.
    split; [done|]. apply bool_decide_eq_true. congruence.
Qed.

(** Inserting keeps the ids unique: an id brought along is refused when
    taken, an id generated is new. *)
Lemma insertOne_unique_ids (doc : document) (c : list document) :
  unique_ids c → unique_ids (snd (insertOne doc c)).
Proof.
  unfold unique_ids, insertOne. intros Hc.
  destruct (own_id doc) as [v|] eqn:Hv.
  - destruct (existsb _ c) eqn:He; [done|]. simpl.
    pose proof (proj1 (proj1 (own_id_some doc v) Hv)) as Hid.
    rewrite fmap_app. apply NoDup_app. split; [done|]. split.
    + intros x Hx Hx'. apply list_elem_of_singleton in Hx'. subst x.
      apply list_elem_of_fmap in Hx as (d & Hd & Hin).
      assert (existsb (λ d : document, bool_decide (d !! "_id" = Some v)) c
              = true); [|congruence].
      apply (id_taken_spec doc c v Hv). exists v, d. by rewrite <- Hd, Hid.
    + simpl. apply NoDup_singleton.
  - simpl. rewrite fmap_app. apply NoDup_app. split; [done|]. split.
    + intros x Hx Hx'. apply list_elem_of_singleton in Hx'. subst x.
      rewrite lookup_insert_eq in Hx.
      apply list_elem_of_fmap in Hx as (d & Hd & Hin). symmetry in Hd.
      pose proof (fresh_oid_above c d _ Hin Hd). lia.
    + simpl. apply NoDup_singleton.
Qed.

Lemma unique_ids_set_docs (k : collection) (c : list document) (st : store) :
  unique_ids_everywhere st → unique_ids c →
  unique_ids_everywhere (set_docs k c st).
Proof.
  intros Hst Hc k'. destruct (decide (k' = k)) as [->|Hne].
  - by rewrite docs_set_docs.
  - rewrite docs_set_docs_ne by done. apply Hst.
Qed.

Lemma keeps_ids_insertOne (k : collection) (doc : document) :
  keeps unique_ids_everywhere (db_insertOne k doc).
Proof.
  apply keeps_on_collection. intros st Hst.
  apply unique_ids_set_docs; [done|]. apply insertOne_unique_ids, Hst.
Qed.

Lemma keeps_ids_updateOne (k : collection) (p : document → bool)
    (upd : document) :
  keeps unique_ids_everywhere (db_updateOne k p upd).
Proof.
  apply keeps_on_collection. intros st Hst.
  apply unique_ids_set_docs; [done|]. unfold unique_ids.
  rewrite updateOne_ids. apply Hst.
Qed.

Lemma keeps_ids_updateMany (k : collection) (p : document → bool)
    (upd : document) :
  keeps unique_ids_everywhere (db_updateMany k p upd).
Proof.
  apply keeps_on_collection. intros st Hst.
  apply unique_ids_set_docs; [done|]. unfold unique_ids.
  rewrite updateMany_ids. apply Hst.
Qed.

Lemma keeps_ids_deleteOne (k : collection) (p : document → bool) :
  keeps unique_ids_everywhere (db_deleteOne k p).
Proof.
  apply keeps_on_collection. intros st Hst.
  apply unique_ids_set_docs; [done|]. unfold unique_ids.
  pose proof (deleteOne_sublist p (docs k st)) as Hsub.
  destruct (deleteOne p (docs k st)) as [r c']. simpl in *.
  eapply sublist_NoDup; [apply (Hst k) | by apply fmap_sublist].
Qed.

Ltac keeps_ids :=
  repeat first
    [ apply keeps_ids_insertOne | apply keeps_ids_updateOne
    | apply keeps_ids_updateMany | apply keeps_ids_deleteOne
    | progress keeps_structure ].

(** X6.  The unique index on [_id] is an invariant of the server:
    whatever a writing route is asked, a store whose five collections
    have unique ids is left with unique ids in all five. *)
Theorem writes_keep_unique_ids (deleteUser : value → outcome unit)
    (req : write_request) (st : store) :
  unique_ids_everywhere st →
  unique_ids_everywhere (snd (write_handler deleteUser req st)).
Proof.
  revert st. change (keeps unique_ids_everywhere (write_handler deleteUser req)).
  destruct req as [| | | | | | | | | | | | | | |[] id]; simpl;
    unfold post_users, make_admin, make_agent, mark_fraud, patch_user,
      post_property, put_property, verify_property, reject_property,
      advertise_property, post_wishlist, post_offer, accept_offer,
      accept_offer_with, read_propertyId, reject_offer, mark_bought, post_review,
      delete_property, delete_user, delete_wishlist, delete_review;
    keeps_ids.
Qed.

Lemma writes_keep_unique_ids_witness :
  unique_ids_everywhere
    (snd (write_handler (λ _, Return ())
            (PostOffers {[ "propertyId" := VStr "Q"; "status" := VStr "pending" ]})
            market)).
Proof.
  apply writes_keep_unique_ids. intros []; decided.
Defined.

Lemma emails_of_fields (c c' : list document) :
  (λ d : document, d !! "email") <$> c' = (λ d : document, d !! "email") <$> c →
  unique_emails c → unique_emails c'.
Proof.
  unfold unique_emails. intros Heq Hc.
  assert (E : ∀ l : list document,
    (λ d : document, bson (d !! "email")) <$> l
    = bson <$> ((λ d : document, d !! "email") <$> l))
    by (intros l; by rewrite <- list_fmap_compose).
  rewrite E in *. by rewrite Heq.
Qed.

Lemma unique_emails_set_docs (k : collection) (c : list document)
    (st : store) :
  (k = users → unique_emails c) →
  unique_emails (usersCollection st) →
  unique_emails (usersCollection (set_docs k c st)).
Proof. destruct k; simpl; auto. Qed.

Lemma keeps_emails_updateOne (k : collection) (p : document → bool)
    (upd : document) :
  k ≠ users ∨ upd !! "email" = None →
  keeps (λ st, unique_emails (usersCollection st)) (db_updateOne k p upd).
Proof.
  intros Hk. apply keeps_on_collection. intros st Hst.
  apply unique_emails_set_docs; [|done]. intros ->.
  destruct Hk as [Hk|Hk]; [done|].
  eapply emails_of_fields; [|exact Hst]. by apply updateOne_field.
Qed.

Lemma keeps_emails_updateMany (k : collection) (p : document → bool)
    (upd : document) :
  k ≠ users ∨ upd !! "email" = None →
  keeps (λ st, unique_emails (usersCollection st)) (db_updateMany k p upd).
Proof.
  intros Hk. apply keeps_on_collection. intros st Hst.
  apply unique_emails_set_docs; [|done]. intros ->.
  destruct Hk as [Hk|Hk]; [done|].
  eapply emails_of_fields; [|exact Hst]. by apply updateMany_field.
Qed.

Lemma keeps_emails_deleteOne (k : collection) (p : document → bool) :
  keeps (λ st, unique_emails (usersCollection st)) (db_deleteOne k p).
Proof.
  apply keeps_on_collection. intros st Hst.
  apply unique_emails_set_docs; [|done]. intros ->. unfold unique_emails.
  pose proof (deleteOne_sublist p (docs users st)) as Hsub.
  destruct (deleteOne p (docs users st)) as [r c']. simpl in *.
  eapply sublist_NoDup; [exact Hst | by apply fmap_sublist].
Qed.

Lemma keeps_emails_insertOne (k : collection) (doc : document) :
  k ≠ users →
  keeps (λ st, unique_emails (usersCollection st)) (db_insertOne k doc).
Proof.
  intros Hk. apply keeps_on_collection. intros st Hst.
  by apply unique_emails_set_docs.
Qed.

(** Registration is where emails could be duplicated, and its lookup
    prevents it. *)
Lemma keeps_emails_post_users (user : document) :
  keeps (λ st, unique_emails (usersCollection st)) (post_users user).
Proof.
  intros st Hst. rewrite post_users_run.
  destruct (findOne _ (usersCollection st)) eqn:Hf; [done|].
  unfold insertOne.
  assert (Hnew : ∀ u, bson (u !! "email") = bson (user !! "email") →
                      unique_emails (usersCollection st ++ [u])).
  { intros u Hu. unfold unique_emails. rewrite fmap_app.
    apply NoDup_app. split; [done|]. split; [|apply NoDup_singleton].
    intros x Hx Hx'. apply list_elem_of_singleton in Hx'. subst x.
    apply list_elem_of_fmap in Hx as (d & Hd & Hin).
    rewrite findOne_none in Hf. specialize (Hf d Hin).
    assert (by_field "email" (user !! "email") d = true); [|congruence].
    apply by_field_spec. congruence. }
  destruct (own_id user) as [v|].
  - destruct (existsb _ _); simpl; [done|]. by apply Hnew.
  - simpl. apply Hnew. by rewrite lookup_insert_ne.
Qed.

Ltac keeps_emails :=
  repeat first
    [ apply keeps_emails_post_users
    | apply keeps_emails_insertOne; done
    | apply keeps_emails_updateOne; ((by left) || (by right))
    | apply keeps_emails_updateMany; ((by left) || (by right))
    | apply keeps_emails_deleteOne
    | progress keeps_structure ].

(** X7.  No writing route duplicates an email: when no two users share
    an email, that is still so after any writing request; in particular
    a registration never adds a second record for an email. *)
Theorem writes_keep_unique_emails (deleteUser : value → outcome unit)
    (req : write_request) (st : store) :
  unique_emails (usersCollection st) →
  unique_emails (usersCollection (snd (write_handler deleteUser req st))).
Proof.
  revert st.
  change (keeps (λ st, unique_emails (usersCollection st))
            (write_handler deleteUser req)).
  destruct req as [| | | | | | | | | | | | | | |[] id]; simpl;
    unfold make_admin, make_agent, mark_fraud, patch_user,
      post_property, put_property, verify_property, reject_property,
      advertise_property, post_wishlist, post_offer, accept_offer,
      accept_offer_with, read_propertyId, reject_offer, mark_bought, post_review,
      delete_property, delete_user, delete_wishlist, delete_review;
    keeps_emails.
Qed.

Lemma writes_keep_unique_emails_witness :
  unique_emails
    (usersCollection
       (snd (write_handler (λ _, Return ())
               (PostUsers {[ "email" := VStr "ann@estate.hub" ]}) market))).
Proof.
  apply writes_keep_unique_emails. unfold unique_emails. decided.
Defined.

(** * Requests whose exception leaves the handler *)

Lemma insertOne_throws (doc : document) (c : list document) :
  match insertOne doc c with
  | (Return _, _) => ¬ id_taken doc c
  | (Throw _, c') => id_taken doc c ∧ c' = c
  end.
Proof.
  unfold insertOne. destruct (own_id doc) as [v|] eqn:Hv.
  - destruct (existsb _ c) eqn:He.
    + split; [|done]. by apply (id_taken_spec doc c v Hv).
    + intros Ht. apply (id_taken_spec doc c v Hv) in Ht. congruence.
  - intros (v & d & Hd & _). congruence.
Qed.

(** X8.  Which writing requests let an exception leave their handler,
    the body of a request being a JSON object or absent.  The routes
    with a [try]/[catch] around all they do catch every exception and
    answer.  An exception leaves the handler in these cases, and only in
    these: advertising a property or deleting a review with an id the
    [ObjectId] constructor refuses; creating a property or a review
    whose body brings an [_id] the collection already holds, or without
    a body; and marking an offer as bought without a body, which is read
    before the [try].  The store is then unchanged. *)
Theorem uncaught_exceptions (deleteUser : value → outcome unit)
    (req : incoming_request) (st : store) :
  match incoming_handler deleteUser req st with
  | (Return _, _) => ¬ uncaught req st
  | (Throw _, st') => st' = st ∧ uncaught req st
  end
  ∧ (uncaught req st →
     ∃ e, incoming_handler deleteUser req st = (Throw e, st)).
Proof.
  assert (Hins : ∀ k doc (n : nat),
    match bind (db_insertOne k doc)
            (λ result, ret (status_send n (Inserted result))) st with
    | (Return _, _) => ¬ id_taken doc (docs k st)
    | (Throw _, st') => st' = st ∧ id_taken doc (docs k st)
    end
    ∧ (id_taken doc (docs k st) →
       ∃ e, bind (db_insertOne k doc)
              (λ result, ret (status_send n (Inserted result))) st
            = (Throw e, st))).
  { intros k doc n. unfold bind, db_insertOne, on_collection.
    pose proof (insertOne_throws doc (docs k st)) as H.
    destruct (insertOne doc (docs k st)) as [[r|e] c]; simpl.
    - split; [done|]. intros Ht. by destruct H.
    - destruct H as [Ht ->]. rewrite set_docs_same. split; [done|]. eauto. }
  assert (Hcatch : ∀ (m : M response) (h : string → M response),
    (∀ e s, ∃ r, h e s = (Return r, s)) →
    ∃ r s, try_catch m h st = (Return r, s)).
  { intros m h Hh. unfold try_catch. destruct (m st) as [[a|e] s]; [eauto|].
    destruct (Hh e s) as [r ->]. eauto. }
  destruct req as [req|route]; cbn [incoming_handler]; cycle 1.
  { destruct route as [| |id| | |id|]; cbn [without_body uncaught];
      try (match goal with
           | |- context [try_catch ?m ?h st] =>
               destruct (Hcatch m h) as (r & s & ->);
                 [intros; eexists; reflexivity | split; [tauto | by intros []]]
           end);
      (split; [by split | intros _; eexists; reflexivity]). }
  destruct req as [user|id|id|id|property|id propertyData|id|id|id|item
                  |offerData|id|id|id transactionId|review|[] id];
    cbn [write_handler delete_handler uncaught];
    unfold post_users, make_admin, make_agent, mark_fraud, patch_user,
      put_property, verify_property, reject_property, post_wishlist,
      post_offer, accept_offer, accept_offer_with, reject_offer, mark_bought,
      delete_property,
      delete_user, delete_wishlist;
    try (match goal with
         | |- context [try_catch ?m ?h st] =>
             destruct (Hcatch m h) as (r & s & ->);
               [intros; eexists; reflexivity | split; [tauto | by intros []]]
         end).
  - apply (Hins properties property 200).
  - unfold advertise_property, bind, lift.
    destruct (ObjectId id) as [i|e] eqn:Hid.
    + destruct (updateOne_returns (by_id i) {[ "advertise" := VBool true ]}
                  (propertiesCollection st)) as (res & c & Hup & _); [done|].
      rewrite (db_updateOne_run properties _ _ _ _ _ Hup). simpl.
      split; by intros (e & He).
    + split; eauto.
  - apply (Hins reviews review 201).
  - unfold delete_review, bind, lift.
    destruct (ObjectId id) as [i|e] eqn:Hid.
    + unfold db_deleteOne, on_collection.
      destruct (deleteOne (by_id i) (docs reviews st)) as [r c]. simpl.
      split; [destruct (Nat.ltb 0 (deletedCount r))|]; by intros (e & He).
    + split; eauto.
Qed.

(** * More on the offer lifecycle *)

Lemma db_find_run (k : collection) (p : document → bool) (st : store) :
  db_find k p st = (Return (find_all p (docs k st)), st).
Proof. reflexivity. Qed.

Lemma given_nonempty (s : string) : s ≠ "" → given (Some s) = true.
Proof.
  intros Hs. unfold given. by rewrite (proj2 (String.eqb_neq s "") Hs).
Qed.

Lemma fmap_keeps_ids (f : document → document) (c : list document) :
  (∀ d, f d !! "_id" = d !! "_id") → unique_ids c → unique_ids (f <$> c).
Proof.
  intros Hf. unfold unique_ids. rewrite <- list_fmap_compose.
  assert (E : (λ d : document, d !! "_id") ∘ f <$> c
              = (λ d : document, d !! "_id") <$> c).
  { apply list_fmap_ext. intros k d _. simpl. apply Hf. }
  by rewrite E.
Qed.

(** The document [PATCH /offers/:id] leaves in place of an offer. *)
Lemma bought_document (o : document) (transactionId : option value) :
  apply_set (<["transactionId" := bson transactionId]> (set_status "bought")) o
  = <["transactionId" := bson transactionId]> (<["status" := VStr "bought"]> o).
Proof.
  unfold apply_set, set_status.
  by rewrite <- insert_union_l, <- insert_union_singleton_l.
Qed.

(** X9.  Marking an offer bought, whatever its status was, stores the
    status [bought] and the transaction id, and moves the offer between
    the listings: afterwards it is among the agent's sold offers and
    among the buyer's offers, with that status and transaction id, and
    the agent's list of open offers no longer has an offer with its
    id. *)
Theorem bought_offer_listings (st : store) (o : document) (i : oid)
    (id a b : string) (transactionId : option value) :
  unique_ids (offersCollection st) → o ∈ offersCollection st →
  o !! "_id" = Some (VId i) → ObjectId id = Return i →
  o !! "agentEmail" = Some (VStr a) → o !! "buyerEmail" = Some (VStr b) →
  a ≠ "" → b ≠ "" →
  ∃ r st' sold bought open,
    mark_bought id transactionId st = (Return r, st')
    ∧ get_agent_sold_properties a st' = (Return (send (Docs sold)), st')
    ∧ <["transactionId" := bson transactionId]>
        (<["status" := VStr "bought"]> o) ∈ sold
    ∧ get_bought_properties (Some b) st' = (Return (send (Docs bought)), st')
    ∧ <["transactionId" := bson transactionId]>
        (<["status" := VStr "bought"]> o) ∈ bought
    ∧ get_offers (Some a) st' = (Return (send (Docs open)), st')
    ∧ ∀ d, d ∈ open → d !! "_id" ≠ Some (VId i).
Proof.
  intros Hu Ho Hi Hid Ha Hb Hane Hbne.
  set (o' := <["transactionId" := bson transactionId]>
               (<["status" := VStr "bought"]> o)).
  pose proof (updateOne_by_id _ o i
                (<["transactionId" := bson transactionId]> (set_status "bought"))
                Hu Ho Hi eq_refl) as Hup.
  rewrite (mark_bought_run st id i transactionId _ _ Hid Hup).
  set (c' := (λ d, if decide (d = o)
                   then apply_set (<["transactionId" := bson transactionId]>
                                     (set_status "bought")) d
                   else d) <$> offersCollection st) in *.
  assert (Hin : o' ∈ c').
  { apply list_elem_of_fmap. exists o. split; [|done].
    by rewrite decide_True, bought_document. }
  assert (Hfields : o' !! "agentEmail" = Some (VStr a)
                    ∧ o' !! "buyerEmail" = Some (VStr b)
                    ∧ o' !! "status" = Some (VStr "bought")).
  { unfold o'. repeat split.
    - by rewrite !lookup_insert_ne.
    - by rewrite !lookup_insert_ne.
    - by rewrite lookup_insert_ne, lookup_insert_eq. }
  destruct Hfields as (Ha' & Hb' & Hs').
  eexists _, _, _, _, _. split; [reflexivity|].
  unfold get_agent_sold_properties, get_bought_properties, get_offers,
    try_catch, bind.
  rewrite !given_nonempty by done. simpl negb. cbv iota.
  rewrite !db_find_run. cbn [docs set_docs offersCollection].
  split; [reflexivity|]. split.
  { apply find_all_elem. split; [done|]. unfold sold_offers_of.
    apply andb_true_iff. split; apply by_field_spec; by rewrite ?Ha', ?Hs'. }
  split; [reflexivity|]. split.
  { apply find_all_elem. split; [done|]. apply by_field_spec. by rewrite Hb'. }
  split; [reflexivity|].
  intros d Hd Hdi. apply find_all_elem in Hd as [Hd Hopen].
  apply list_elem_of_fmap in Hd as (d0 & -> & Hd0).
  destruct (decide (d0 = o)) as [->|Hne].
  - rewrite bought_document in Hopen. fold o' in Hopen.
    unfold open_offers_of in Hopen. apply andb_true_iff in Hopen as [_ Hin'].
    rewrite Hs' in Hin'. vm_compute in Hin'. discriminate.
  - pose proof (by_id_other _ d0 o i Hu Hd0 Ho Hi Hne) as Hf.
    apply by_id_spec in Hdi. congruence.
Qed.

Lemma bought_offer_listings_witness :
  ∃ r st' bought,
    mark_bought id1 (Some (VStr "tx123"))
      (set_docs offers
         [ <["agentEmail" := VStr "ann@estate.hub"]>
             (offer 1%N "P" "bob@mail" "accepted") ] market)
    = (Return r, st')
    ∧ get_bought_properties (Some "bob@mail") st'
      = (Return (send (Docs bought)), st')
    ∧ <["transactionId" := VStr "tx123"]>
        (<["status" := VStr "bought"]>
           (<["agentEmail" := VStr "ann@estate.hub"]>
              (offer 1%N "P" "bob@mail" "accepted"))) ∈ bought.
Proof.
  destruct (bought_offer_listings
              (set_docs offers
                 [ <["agentEmail" := VStr "ann@estate.hub"]>
                     (offer 1%N "P" "bob@mail" "accepted") ] market)
              (<["agentEmail" := VStr "ann@estate.hub"]>
                 (offer 1%N "P" "bob@mail" "accepted"))
              1%N id1 "ann@estate.hub" "bob@mail" (Some (VStr "tx123")))
    as (r & st' & sold & bought & open & Hrun & _ & _ & Hb & Hin & _).
  - decided.
  - decided.
  - vm_compute. reflexivity.
  - vm_compute. reflexivity.
  - vm_compute. reflexivity.
  - vm_compute. reflexivity.
  - discriminate.
  - discriminate.
  - exists r, st', bought. split; [exact Hrun|]. split; [exact Hb | exact Hin].
Defined.

(** X10.  After an offer is accepted it is the only accepted offer on
    its property: the store holds it with status [accepted], and every
    offer with an equal property reference and status [accepted] is that
    one. *)
Theorem accept_leaves_one_accepted (st : store) (o : document) (i : oid)
    (id : string) :
  unique_ids (offersCollection st) → o ∈ offersCollection st →
  o !! "_id" = Some (VId i) → ObjectId id = Return i →
  ∃ r st',
    accept_offer id st = (Return r, st')
    ∧ <["status" := VStr "accepted"]> o ∈ offersCollection st'
    ∧ ∀ d, d ∈ offersCollection st' →
           bson (d !! "propertyId") = bson (o !! "propertyId") →
           d !! "status" = Some (VStr "accepted") →
           d = <["status" := VStr "accepted"]> o.
Proof.
  intros Hu Ho Hi Hid.
  destruct (accept_offer_run st o i id Hu Ho Hi Hid)
    as (st1 & res & _ & _ & _ & Hrun).
  eexists _, _. split; [exact Hrun|]. cbn [offersCollection set_docs]. split.
  - apply list_elem_of_fmap. exists o. split; [|done]. by rewrite decide_True.
  - intros d Hd Hp Hs. apply list_elem_of_fmap in Hd as (d0 & -> & Hd0).
    destruct (decide (d0 = o)) as [->|Hne]; [done|].
    destruct (decide (bson (d0 !! "propertyId") = bson (o !! "propertyId")))
      as [Hsame|Hdiff].
    + rewrite lookup_insert_eq in Hs. discriminate.
    + done.
Qed.

Lemma accept_leaves_one_accepted_witness :
  ∃ r st',
    accept_offer id2 market_accepted = (Return r, st')
    ∧ offer 2%N "P" "eve@mail" "accepted" ∈ offersCollection st'
    ∧ ∀ d, d ∈ offersCollection st' →
           bson (d !! "propertyId") = VStr "P" →
           d !! "status" = Some (VStr "accepted") →
           d = offer 2%N "P" "eve@mail" "accepted".
Proof.
  destruct (accept_leaves_one_accepted market_accepted
              (offer 2%N "P" "eve@mail" "pending") 2%N id2)
    as (r & st' & Hrun & Hin & Hone).
  - decided.
  - decided.
  - vm_compute. reflexivity.
  - vm_compute. reflexivity.
  - exists r, st'. split; [exact Hrun|].
    replace (offer 2%N "P" "eve@mail" "accepted")
      with (<["status" := VStr "accepted"]> (offer 2%N "P" "eve@mail" "pending"))
      by (vm_compute; reflexivity).
    split; [exact Hin|]. intros d Hd Hp Hs. by apply Hone.
Defined.

(** X11.  Accepting is idempotent on the store: accepting the same
    offer a second time leaves the store the first acceptance produced,
    and answers 404. *)
Theorem accept_again_changes_nothing (st : store) (o : document) (i : oid)
    (id : string) :
  unique_ids (offersCollection st) → o ∈ offersCollection st →
  o !! "_id" = Some (VId i) → ObjectId id = Return i →
  ∃ r1 r2 st',
    accept_offer id st = (Return r1, st')
    ∧ accept_offer id st' = (Return r2, st')
    ∧ NotFound r2.
Proof.
  intros Hu Ho Hi Hid.
  destruct (accept_offer_run st o i id Hu Ho Hi Hid)
    as (st1 & res & _ & _ & _ & Hrun).
  set (f := λ d : document,
         if decide (d = o) then <["status" := VStr "accepted"]> d
         else if decide (bson (d !! "propertyId") = bson (o !! "propertyId"))
              then <["status" := VStr "rejected"]> d
              else d) in *.
  set (o' := <["status" := VStr "accepted"]> o).
  assert (Hfid : ∀ d, f d !! "_id" = d !! "_id").
  { intros d. unfold f. repeat case_decide; by rewrite ?lookup_insert_ne. }
  assert (Hu' : unique_ids (f <$> offersCollection st))
    by (by apply fmap_keeps_ids).
  assert (Ho' : o' ∈ f <$> offersCollection st).
  { apply list_elem_of_fmap. exists o. split; [|done].
    unfold f. by rewrite decide_True. }
  assert (Hi' : o' !! "_id" = Some (VId i))
    by (unfold o'; by rewrite lookup_insert_ne).
  destruct (accept_offer_run
              (set_docs offers (f <$> offersCollection st) st) o' i id
              Hu' Ho' Hi' Hid) as (st2 & res' & _ & _ & _ & Hrun').
  rewrite changed_set_status in Hrun'.
  rewrite decide_True in Hrun' by (unfold o'; by rewrite lookup_insert_eq).
  change (offersCollection (set_docs offers (f <$> offersCollection st) st))
    with (f <$> offersCollection st) in Hrun'.
  assert (Hfix :
    (λ d : document,
       if decide (d = o') then <["status" := VStr "accepted"]> d
       else if decide (bson (d !! "propertyId") = bson (o' !! "propertyId"))
            then <["status" := VStr "rejected"]> d
            else d) <$> (f <$> offersCollection st)
    = f <$> offersCollection st).
  { rewrite <- list_fmap_compose. apply list_fmap_ext. intros k d Hk. simpl.
    apply list_elem_of_lookup_2 in Hk.
    assert (Hp : o' !! "propertyId" = o !! "propertyId")
      by (unfold o'; by rewrite lookup_insert_ne).
    rewrite Hp. destruct (decide (d = o)) as [->|Hne].
    - assert (Hfo : f o = o') by (unfold f; by rewrite decide_True).
      rewrite Hfo, decide_True by done. unfold o'.
      by rewrite insert_insert_eq.
    - assert (Hdi : d !! "_id" ≠ Some (VId i)).
      { intros Hdi. apply Hne, (unique_ids_inj _ d o Hu Hk Ho). congruence. }
      assert (Hne' : f d ≠ o').
      { intros Heq. apply Hdi. by rewrite <- Hi', <- Heq, Hfid. }
      rewrite decide_False by done.
      destruct (decide (bson (d !! "propertyId") = bson (o !! "propertyId")))
        as [Hsame|Hdiff].
      + assert (Hfd : f d = <["status" := VStr "rejected"]> d)
          by (unfold f; by rewrite decide_False, decide_True).
        rewrite Hfd, lookup_insert_ne by done. rewrite decide_True by done.
        by rewrite insert_insert_eq.
      + assert (Hfd : f d = d)
          by (unfold f; by rewrite !decide_False).
        rewrite Hfd. by rewrite decide_False. }
  rewrite Hfix in Hrun'. rewrite set_docs_set_docs in Hrun'.
  eexists _, _, _. split; [exact Hrun|]. split; [exact Hrun'|]. reflexivity.
Qed.

Lemma accept_again_changes_nothing_witness :
  ∃ r1 r2 st',
    accept_offer id1 market = (Return r1, st')
    ∧ accept_offer id1 st' = (Return r2, st')
    ∧ status r2 = 404.
Proof.
  apply (accept_again_changes_nothing market
           (offer 1%N "P" "bob@mail" "pending") 1%N id1).
  - decided.
  - decided.
  - vm_compute. reflexivity.
  - vm_compute. reflexivity.
Defined.


(** A body whose [_id] is [null] is stored under a new object id, also
    when the collection holds such a body already. *)
Lemma post_offer_null_id :
  ∃ r1 r2 st1 st2,
    post_offer {[ "_id" := VNull; "status" := VStr "pending" ]} market
      = (Return r1, st1)
    ∧ post_offer {[ "_id" := VNull; "status" := VStr "pending" ]} st1
      = (Return r2, st2)
    ∧ sent r1 = Inserted {| insertedId := VId 4%N |}
    ∧ sent r2 = Inserted {| insertedId := VId 5%N |}
    ∧ status r1 = 201 ∧ status r2 = 201.
Proof.
  eexists _, _, _, _. split; [vm_compute; reflexivity|].
  split; [vm_compute; reflexivity|]. by repeat split.
Qed.

(** * Properties, deletions and the dashboard *)

Lemma elem_sort_docs (le : document → document → bool) (l : list document)
    (d : document) :
  d ∈ sort_docs le l ↔ d ∈ l.
Proof. by rewrite (sort_docs_perm le l). Qed.

Lemma by_field_present (field : string) (v : value) (d : document) :
  d !! field = Some v → by_field field (Some v) d = true.
Proof. intros H. apply by_field_spec. by rewrite H. Qed.

(** Setting one field of the designated property. *)
Lemma set_property_field (st : store) (p : document) (i : oid) (k : string)
    (v : value) :
  unique_ids (propertiesCollection st) → p ∈ propertiesCollection st →
  p !! "_id" = Some (VId i) → k ≠ "_id" →
  updateOne (by_id i) {[ k := v ]} (propertiesCollection st)
  = (Return {| matchedCount := 1; modifiedCount := changed {[ k := v ]} p |},
     (λ d, if decide (d = p) then <[k := v]> d else d)
       <$> propertiesCollection st)
  ∧ <[k := v]> p
    ∈ (λ d, if decide (d = p) then <[k := v]> d else d)
        <$> propertiesCollection st
  ∧ findOne (by_id i)
      ((λ d, if decide (d = p) then <[k := v]> d else d)
         <$> propertiesCollection st)
    = Some (<[k := v]> p).
Proof.
  intros Hu Hp Hi Hk.
  assert (Hmap : (λ d, if decide (d = p) then apply_set {[ k := v ]} d else d)
                   <$> propertiesCollection st
                 = (λ d, if decide (d = p) then <[k := v]> d else d)
                     <$> propertiesCollection st).
  { apply list_fmap_ext. intros n d _. simpl.
    destruct (decide (d = p)); [by rewrite apply_set_singleton | done]. }
  split.
  { rewrite (updateOne_by_id _ p i) by (done || by rewrite lookup_singleton_ne).
    by rewrite Hmap. }
  split.
  { apply list_elem_of_fmap. exists p. split; [|done]. by rewrite decide_True. }
  rewrite findOne_fmap.
  - rewrite (findOne_by_id _ p i) by done. simpl. by rewrite decide_True.
  - intros d. unfold by_id. destruct (decide (d = p)); [|done].
    by rewrite lookup_insert_ne.
Qed.

(** X13.  Verifying a stored property makes it appear among the verified
    properties: after [PATCH /properties/verify/:id] the listing of
    [GET /properties/verified] contains the property with status
    [verified], and [GET /properties/:id] answers with it. *)
Theorem verified_property_is_listed (st : store) (p : document) (i : oid)
    (id : string) :
  unique_ids (propertiesCollection st) → p ∈ propertiesCollection st →
  p !! "_id" = Some (VId i) → ObjectId id = Return i →
  ∃ r st' listing,
    verify_property id st = (Return r, st') ∧ Success r
    ∧ get_verified_properties st' = (Return (send (Docs listing)), st')
    ∧ <["status" := VStr "verified"]> p ∈ listing
    ∧ get_property id st'
      = (Return (send (Doc (<["status" := VStr "verified"]> p))), st').
Proof.
  intros Hu Hp Hi Hid.
  destruct (set_property_field st p i "status" (VStr "verified") Hu Hp Hi)
    as (Hup & Hin & Hfind); [done|].
  rewrite (verify_property_run st id i _ _ Hid Hup).
  eexists _, _, _. split; [reflexivity|]. split; [by left|].
  split; [reflexivity|]. split.
  - apply elem_sort_docs, find_all_elem. split; [exact Hin|].
    apply by_field_present. by rewrite lookup_insert_eq.
  - unfold get_property, try_catch, bind, lift, db_findOne. rewrite Hid.
    cbn [docs set_docs propertiesCollection]. by rewrite Hfind.
Qed.

Lemma verified_property_is_listed_witness :
  ∃ r st' listing,
    verify_property id1
      (set_docs properties
         [ {[ "_id" := VId 1%N; "title" := VStr "P"; "status" := VStr "pending" ]} ]
         market)
    = (Return r, st')
    ∧ get_verified_properties st' = (Return (send (Docs listing)), st')
    ∧ {[ "_id" := VId 1%N; "title" := VStr "P"; "status" := VStr "verified" ]}
      ∈ listing.
Proof.
  destruct (verified_property_is_listed
              (set_docs properties
                 [ {[ "_id" := VId 1%N; "title" := VStr "P";
                      "status" := VStr "pending" ]} ] market)
              {[ "_id" := VId 1%N; "title" := VStr "P"; "status" := VStr "pending" ]}
              1%N id1) as (r & st' & listing & Hrun & _ & Hlist & Hin & _).
  - decided.
  - decided.
  - vm_compute. reflexivity.
  - vm_compute. reflexivity.
  - exists r, st', listing. split; [exact Hrun|]. split; [exact Hlist|].
    replace ({[ "_id" := VId 1%N; "title" := VStr "P";
                "status" := VStr "verified" ]} : document)
      with (<["status" := VStr "verified"]>
              ({[ "_id" := VId 1%N; "title" := VStr "P";
                  "status" := VStr "pending" ]} : document))
      by (vm_compute; reflexivity).
    exact Hin.
Defined.

(** X14.  Advertising a stored property makes it appear among the
    advertised ones: after [PATCH /properties/advertise/:id] the listing
    of [GET /advertised] contains the property with [advertise] set. *)
Theorem advertised_property_is_listed (st : store) (p : document) (i : oid)
    (id : string) :
  unique_ids (propertiesCollection st) → p ∈ propertiesCollection st →
  p !! "_id" = Some (VId i) → ObjectId id = Return i →
  ∃ r st' listing,
    advertise_property id st = (Return r, st') ∧ Success r
    ∧ get_advertised st' = (Return (send (Docs listing)), st')
    ∧ <["advertise" := VBool true]> p ∈ listing.
Proof.
  intros Hu Hp Hi Hid.
  destruct (set_property_field st p i "advertise" (VBool true) Hu Hp Hi)
    as (Hup & Hin & Hfind); [done|].
  rewrite (advertise_property_run st id i _ _ Hid Hup).
  eexists _, _, _. split; [reflexivity|]. split; [by left|].
  split; [reflexivity|].
  apply find_all_elem. split; [exact Hin|].
  apply by_field_present. by rewrite lookup_insert_eq.
Qed.

Lemma advertised_property_is_listed_witness :
  ∃ r st' listing,
    advertise_property id1 market = (Return r, st')
    ∧ get_advertised st' = (Return (send (Docs listing)), st')
    ∧ listing ≠ [].
Proof.
  destruct (advertised_property_is_listed market
              {[ "_id" := VId 1%N; "title" := VStr "P"; "status" := VStr "verified" ]}
              1%N id1) as (r & st' & listing & Hrun & _ & Hlist & Hin).
  - decided.
  - decided.
  - vm_compute. reflexivity.
  - vm_compute. reflexivity.
  - exists r, st', listing. split; [exact Hrun|]. split; [exact Hlist|].
    intros ->. by apply elem_of_nil in Hin.
Defined.

Lemma filter_all (P : document → Prop) `{∀ d, Decision (P d)}
    (l : list document) :
  (∀ d, d ∈ l → P d) → filter P l = l.
Proof.
  induction l as [|x l IH]; intros Hall; [done|].
  rewrite filter_cons_True by (apply Hall, list_elem_of_here).
  f_equal. apply IH. intros d Hd. by apply Hall, list_elem_of_further.
Qed.

Lemma deleteOne_by_id (c : list document) (o : document) (i : oid) :
  unique_ids c → o ∈ c → o !! "_id" = Some (VId i) →
  deleteOne (by_id i) c
  = ({| deletedCount := 1 |}, filter (λ d, d ≠ o) c).
Proof.
  intros Hu Ho Hi. induction c as [|x c IH]; [by apply elem_of_nil in Ho|].
  simpl. rewrite filter_cons. destruct (decide (x = o)) as [->|Hne].
  - rewrite (by_id_of o i) by done. rewrite decide_False by (by intros H).
    f_equal. symmetry. apply filter_all.
    pose proof (unique_ids_head_fresh _ _ Hu) as Hfresh.
    by intros d Hd ->.
  - rewrite (by_id_other (x :: c) x o i); try done; [|apply list_elem_of_here].
    apply elem_of_cons in Ho as [->|Ho]; [done|].
    rewrite IH; [|by eapply unique_ids_tail | done].
    by rewrite decide_True.
Qed.

(** X15.  Deleting removes exactly the designated document.  For each of
    the four delete routes and a stored document the id designates, the
    route answers with a success, its collection is left without that
    document and otherwise as it was, the other collections are
    untouched, and the same request repeated answers 404. *)
Theorem delete_removes_exactly (deleteUser : value → outcome unit)
    (ep : delete_endpoint) (st : store) (p : document) (i : oid)
    (id : string) :
  unique_ids (docs (delete_target ep) st) → p ∈ docs (delete_target ep) st →
  p !! "_id" = Some (VId i) → ObjectId id = Return i →
  ∃ r st',
    delete_handler deleteUser ep id st = (Return r, st') ∧ Success r
    ∧ docs (delete_target ep) st'
      = filter (λ d, d ≠ p) (docs (delete_target ep) st)
    ∧ (∀ k, k ≠ delete_target ep → docs k st' = docs k st)
    ∧ ∃ r2, delete_handler deleteUser ep id st' = (Return r2, st')
            ∧ NotFound r2.
Proof.
  intros Hu Hp Hi Hid.
  pose proof (deleteOne_by_id _ p i Hu Hp Hi) as Hdel.
  assert (Hrun : ∃ r,
    delete_handler deleteUser ep id st
    = (Return r,
       set_docs (delete_target ep)
         (filter (λ d, d ≠ p) (docs (delete_target ep) st)) st)
    ∧ Success r).
  { destruct ep; simpl in *;
      unfold delete_property, delete_user, delete_wishlist, delete_review,
        try_catch, bind, lift, db_deleteOne, on_collection, db_findOne;
      rewrite Hid; cbn [docs].
    - rewrite Hdel. simpl. eexists. split; [reflexivity | by left].
    - rewrite (findOne_by_id _ p i) by done. unfold ret.
      destruct (truthy (p !! "uid"));
        [destruct (deleteUser (bson (p !! "uid"))) as [[]|e]|];
        cbn [docs]; rewrite Hdel; simpl;
        (eexists; split; [reflexivity | by left]).
    - rewrite Hdel. simpl. eexists. split; [reflexivity | by left].
    - rewrite Hdel. simpl. eexists. split; [reflexivity | by left]. }
  destruct Hrun as (r & Hrun & Hok).
  eexists _, _. split; [exact Hrun|]. split; [exact Hok|].
  split; [by rewrite docs_set_docs|].
  split; [intros k Hk; by apply docs_set_docs_ne|].
  pose proof (delete_handler_unknown_id deleteUser ep
                (set_docs (delete_target ep)
                   (filter (λ d, d ≠ p) (docs (delete_target ep) st)) st) id)
    as Hgone.
  rewrite Hid in Hgone. apply Hgone. rewrite docs_set_docs.
  intros d Hd (j & Hj & Hdj). apply list_elem_of_filter in Hd as [Hne Hd].
  apply Hne, (unique_ids_inj _ d p Hu Hd Hp). congruence.
Qed.

Lemma delete_removes_exactly_witness :
  ∃ r st',
    delete_user (λ _, Throw "auth/user-not-found") id2 market = (Return r, st')
    ∧ Success r
    ∧ usersCollection st' = [ user 1%N "root@estate.hub" "admin" ].
Proof.
  destruct (delete_removes_exactly (λ _, Throw "auth/user-not-found")
              DeleteUser market (user 2%N "ann@estate.hub" "agent") 2%N id2)
    as (r & st' & Hrun & Hok & Hdocs & _).
  - decided.
  - decided.
  - vm_compute. reflexivity.
  - vm_compute. reflexivity.
  - exists r, st'. split; [exact Hrun|]. split; [exact Hok|].
    change (usersCollection st') with (docs (delete_target DeleteUser) st').
    rewrite Hdocs. vm_compute. reflexivity.
Defined.

(** X16.  Removing a user does not depend on the identity provider:
    whatever its deletion call does, succeed or throw, the response and
    the store are the same. *)
Theorem delete_user_ignores_provider (f g : value → outcome unit)
    (id : string) (st : store) :
  delete_user f id st = delete_user g id st.
Proof.
  unfold delete_user, try_catch, bind, lift, db_findOne.
  destruct (ObjectId id) as [i|e]; [|done].
  destruct (findOne (by_id i) (docs users st)) as [u|]; [|done].
  destruct (truthy (u !! "uid")); [|done]. unfold ret.
  by destruct (f (bson (u !! "uid"))) as [[]|?],
              (g (bson (u !! "uid"))) as [[]|?].
Qed.

Lemma count_three (p q r : document → bool) (c : list document) :
  (∀ d, p d = true → q d = false ∧ r d = false) →
  (∀ d, q d = true → r d = false) →
  (countDocuments p c + countDocuments q c + countDocuments r c ≤ length c)%nat
  ∧ ((∀ d, d ∈ c → p d = true ∨ q d = true ∨ r d = true) →
     (countDocuments p c + countDocuments q c + countDocuments r c)%nat
     = length c).
Proof.
  intros Hp Hq. unfold countDocuments.
  induction c as [|x c [IH1 IH2]]; simpl; [done|].
  assert (Hx : ((if p x then 1 else 0) + (if q x then 1 else 0)
               + (if r x then 1 else 0) ≤ 1)%nat).
  { destruct (p x) eqn:Hpx; [destruct (Hp x Hpx) as [-> ->]; simpl; lia|].
    destruct (q x) eqn:Hqx; [rewrite (Hq x Hqx); simpl; lia|].
    destruct (r x); simpl; lia. }
  split.
  - destruct (p x), (q x), (r x); simpl in *; lia.
  - intros Hall.
    assert (Hx1 : p x = true ∨ q x = true ∨ r x = true)
      by (apply Hall, list_elem_of_here).
    assert (Hc : ∀ d, d ∈ c → p d = true ∨ q d = true ∨ r d = true)
      by (intros d Hd; by apply Hall, list_elem_of_further).
    specialize (IH2 Hc).
    destruct (p x), (q x), (r x); simpl in *; try lia;
      destruct Hx1 as [?|[?|?]]; discriminate.
Qed.

Lemma by_field_string (field s : string) (d : document) :
  by_field field (Some (VStr s)) d = true ↔ d !! field = Some (VStr s).
Proof.
  rewrite by_field_spec. simpl. destruct (d !! field) as [v|]; simpl;
    split; congruence.
Qed.

(** X17.  The dashboard always answers with a summary and leaves the
    store as it is.  The three role counts add up to at most the number
    of users and the three status counts to at most the number of
    properties, with equality when every user has one of the roles
    [user], [admin], [agent], respectively every property one of the
    statuses [pending], [verified], [rejected]; documents with another
    role or status, or none, are counted in no class. *)
Theorem dashboard_counts (st : store) :
  ∃ s,
    admin_dashboard_summary st = (Return (inl s), st)
    ∧ allProperties s = length (propertiesCollection st)
    ∧ totalReviews s = length (reviewsCollection st)
    ∧ (totalUsers s + totalAdmins s + totalAgents s
       ≤ length (usersCollection st))%nat
    ∧ (pendingProperties s + acceptedProperties s + rejectedProperties s
       ≤ allProperties s)%nat
    ∧ (advertisedProperties s ≤ allProperties s)%nat
    ∧ ((∀ u, u ∈ usersCollection st →
             u !! "role" = Some (VStr "user")
             ∨ u !! "role" = Some (VStr "admin")
             ∨ u !! "role" = Some (VStr "agent")) →
       (totalUsers s + totalAdmins s + totalAgents s)%nat
       = length (usersCollection st))
    ∧ ((∀ p, p ∈ propertiesCollection st →
             p !! "status" = Some (VStr "pending")
             ∨ p !! "status" = Some (VStr "verified")
             ∨ p !! "status" = Some (VStr "rejected")) →
       (pendingProperties s + acceptedProperties s + rejectedProperties s)%nat
       = allProperties s).
Proof.
  eexists. split; [reflexivity|]. cbn [allProperties totalReviews totalUsers
    totalAdmins totalAgents pendingProperties acceptedProperties
    rejectedProperties advertisedProperties docs].
  assert (Hex : ∀ (field a b : string) d, a ≠ b →
    by_field field (Some (VStr a)) d = true →
    by_field field (Some (VStr b)) d = false).
  { intros field a b d Hab Ha. apply not_true_is_false. intros Hb.
    apply by_field_string in Ha, Hb. congruence. }
  destruct (count_three (by_field "role" (Some (VStr "user")))
              (by_field "role" (Some (VStr "admin")))
              (by_field "role" (Some (VStr "agent"))) (usersCollection st))
    as [Hu1 Hu2].
  { intros d Hd. split; by apply (Hex "role" "user"). }
  { intros d Hd. by apply (Hex "role" "admin"). }
  destruct (count_three (by_field "status" (Some (VStr "pending")))
              (by_field "status" (Some (VStr "verified")))
              (by_field "status" (Some (VStr "rejected")))
              (propertiesCollection st)) as [Hp1 Hp2].
  { intros d Hd. split; by apply (Hex "status" "pending"). }
  { intros d Hd. by apply (Hex "status" "verified"). }
  split; [done|]. split; [done|]. split; [exact Hu1|]. split; [exact Hp1|].
  split.
  { unfold countDocuments. apply List.filter_length_le. }
  split.
  - intros Hall. apply Hu2. intros d Hd. rewrite !by_field_string. by apply Hall.
  - intros Hall. apply Hp2. intros d Hd. rewrite !by_field_string. by apply Hall.
Qed.

(** * More on tokens and guarded routes *)

(** X18.  What [verifyToken] lets through.  It calls [next()] only for a
    header whose second blank-separated part is a non-empty token that
    decodes to the claims handed on, signed with the server's secret,
    and whose expiry, when the claims carry one, the clock has not
    reached.  It answers 401 exactly when the header is absent or empty,
    and 403 to every other header it refuses. *)
Theorem verifyToken_sound `{JsonWebToken} (JWT_SECRET : string)
    (authorization : option string) (now : Z) :
  match verifyToken JWT_SECRET authorization now with
  | Next decoded =>
      ∃ authHeader token,
        authorization = Some authHeader ∧ authHeader ≠ ""
        ∧ split " " authHeader !! 1%nat = Some token ∧ token ≠ ""
        ∧ jwt_decode token = Some (decoded, hmac JWT_SECRET decoded)
        ∧ ∀ exp, decoded !! "exp" = Some (VNum exp) → (now < exp)%Z
  | Respond r =>
      (Unauthorized r ∧ (authorization = None ∨ authorization = Some ""))
      ∨ (Forbidden r ∧ ∃ authHeader, authorization = Some authHeader
                                     ∧ authHeader ≠ "")
  end.
Proof.
  unfold verifyToken. destruct authorization as [authHeader|];
    [|left; split; [reflexivity | by left]].
  destruct (String.eqb authHeader "") eqn:Hh.
  { apply String.eqb_eq in Hh as ->. left. split; [reflexivity | by right]. }
  apply String.eqb_neq in Hh. unfold jwt_verify.
  destruct (split " " authHeader !! 1%nat) as [token|] eqn:Htok;
    [|right; split; [reflexivity | eauto]].
  destruct (String.eqb token "") eqn:Ht; [right; split; [reflexivity | eauto]|].
  apply String.eqb_neq in Ht.
  destruct (jwt_decode token) as [[claims signature]|] eqn:Hdec;
    [|right; split; [reflexivity | eauto]].
  destruct (String.eqb JWT_SECRET ""); [right; split; [reflexivity | eauto]|].
  destruct (String.eqb signature (hmac JWT_SECRET claims)) eqn:Hsig; simpl;
    [|right; split; [reflexivity | eauto]].
  apply String.eqb_eq in Hsig as ->.
  destruct (claims !! "exp") as [[| |exp| |]|] eqn:Hexp;
    try (right; split; [reflexivity | eauto]).
  - destruct (exp <=? now)%Z eqn:Hle; [right; split; [reflexivity | eauto]|].
    apply Z.leb_gt in Hle. exists authHeader, token. repeat split; try done.
    intros exp' Hexp'. congruence.
  - exists authHeader, token. repeat split; try done.
    intros exp' Hexp'. congruence.
Qed.

Section guarded_routes.
Context `{JsonWebTokenLaws}.

(** With a secret configured, the header a client builds from the
    token [POST /jwt] issued is verified, before the expiry, to claims
    with the email it asked for. *)
Lemma issued_token_verifies (JWT_SECRET : string) (user : document)
    (e : value) (now now' : Z) :
  JWT_SECRET ≠ "" →
  user !! "email" = Some e → truthy (Some e) = true →
  (now' < now + expiresIn)%Z →
  ∃ token decoded,
    post_jwt JWT_SECRET (Some user) now = Return (send (TokenBody token))
    ∧ verifyToken JWT_SECRET (Some ("Bearer " ++ token)) now' = Next decoded
    ∧ decoded !! "email" = Some e.
Proof.
  intros Hs He Ht Hnow.
  pose proof (jwt_sign_issues
                (object_of [("email", user !! "email");
                            ("role", user !! "role")]) JWT_SECRET now Hs)
    as Hsign.
  eexists _, _. split.
  { rewrite post_jwt_run by (by rewrite He). rewrite Hsign. reflexivity. }
  unfold verifyToken.
  change (String.eqb ("Bearer " ++ ?x) "") with false. cbv iota.
  rewrite bearer_token by apply jwt_encode_no_space.
  rewrite (jwt_verify_sign _ _ _ _ _ Hsign).
  replace (now + expiresIn <=? now')%Z with false
    by (symmetry; apply Z.leb_gt; lia).
  split; [reflexivity|]. rewrite !lookup_insert_ne by done.
  rewrite He. by destruct (object_of_email_role (Some e) (user !! "role") e eq_refl).
Qed.

(** X19.  The role a client asks for at [POST /jwt] gives no power.
    With a secret configured, a token issued for an email, whatever role
    the request named, lets the
    admin routes run exactly when the role stored for that email is
    [admin] and the agent routes exactly when it is [agent]: otherwise
    the route answers 403 and leaves the store as it was, and when the
    stored role fits the route does what its handler does.  Verifying a
    property asks for a token only: it runs whatever role is stored. *)
Theorem requested_role_gives_no_power (JWT_SECRET : string)
    (user : document) (e : value) (now now' : Z) (st : store)
    (deleteUser : value → outcome unit) (id : string) :
  JWT_SECRET ≠ "" →
  user !! "email" = Some e → truthy (Some e) = true →
  (now' < now + 30 * 24 * 60 * 60)%Z →
  ∃ token,
    post_jwt JWT_SECRET (Some user) now = Return (send (TokenBody token))
    ∧ (role_of (findOne (by_field "email" (Some e)) (usersCollection st))
       ≠ Some (VStr "admin") →
       ∃ r, Forbidden r
            ∧ route_make_admin JWT_SECRET (Some ("Bearer " ++ token)) now' id st
              = (Return r, st)
            ∧ route_make_agent JWT_SECRET (Some ("Bearer " ++ token)) now' id st
              = (Return r, st)
            ∧ route_mark_fraud JWT_SECRET (Some ("Bearer " ++ token)) now' id st
              = (Return r, st)
            ∧ route_delete_user JWT_SECRET (Some ("Bearer " ++ token)) now'
                deleteUser id st
              = (Return r, st))
    ∧ (role_of (findOne (by_field "email" (Some e)) (usersCollection st))
       = Some (VStr "admin") →
       route_make_admin JWT_SECRET (Some ("Bearer " ++ token)) now' id st
         = make_admin id st
       ∧ route_make_agent JWT_SECRET (Some ("Bearer " ++ token)) now' id st
         = make_agent id st
       ∧ route_mark_fraud JWT_SECRET (Some ("Bearer " ++ token)) now' id st
         = mark_fraud id st
       ∧ route_delete_user JWT_SECRET (Some ("Bearer " ++ token)) now'
           deleteUser id st
         = delete_user deleteUser id st)
    ∧ (role_of (findOne (by_field "email" (Some e)) (usersCollection st))
       ≠ Some (VStr "agent") →
       ∃ r, Forbidden r
            ∧ route_accept_offer JWT_SECRET (Some ("Bearer " ++ token)) now' id st
              = (Return r, st)
            ∧ route_reject_offer JWT_SECRET (Some ("Bearer " ++ token)) now' id st
              = (Return r, st))
    ∧ (role_of (findOne (by_field "email" (Some e)) (usersCollection st))
       = Some (VStr "agent") →
       route_accept_offer JWT_SECRET (Some ("Bearer " ++ token)) now' id st
         = accept_offer id st
       ∧ route_reject_offer JWT_SECRET (Some ("Bearer " ++ token)) now' id st
         = reject_offer id st)
    ∧ route_verify_property JWT_SECRET (Some ("Bearer " ++ token)) now' id st
      = verify_property id st.
Proof.
  intros Hs He Ht Hnow.
  destruct (issued_token_verifies JWT_SECRET user e now now' Hs He Ht)
    as (token & decoded & Hissue & Hverify & Hemail);
    [unfold expiresIn; lia|].
  exists token. split; [exact Hissue|].
  unfold route_make_admin, route_make_agent, route_mark_fraud,
    route_delete_user, route_accept_offer, route_reject_offer,
    route_verify_property, behind_token. rewrite Hverify.
  unfold verifyAdmin, verifyAgent. rewrite !verifyRole_decision.
  unfold stored_role. rewrite Hemail. repeat split.
  - intros Hrole. rewrite decide_False by done.
    eexists. split; [|by repeat split]. reflexivity.
  - by rewrite decide_True.
  - by rewrite decide_True.
  - by rewrite decide_True.
  - by rewrite decide_True.
  - intros Hrole. rewrite decide_False by done.
    eexists. split; [|by repeat split]. reflexivity.
  - by rewrite decide_True.
  - by rewrite decide_True.
Qed.
End guarded_routes.

Lemma requested_role_gives_no_power_witness :
  ∃ token r,
    post_jwt "secret"
      (Some {[ "email" := VStr "ann@estate.hub"; "role" := VStr "admin" ]}) 0
      = Return (send (TokenBody token))
    ∧ route_make_admin "secret" (Some ("Bearer " ++ token)) 86400 id2 market
      = (Return r, market)
    ∧ status r = 403.
Proof.
  destruct (requested_role_gives_no_power "secret"
              {[ "email" := VStr "ann@estate.hub"; "role" := VStr "admin" ]}
              (VStr "ann@estate.hub") 0 86400 market (λ _, Return ()) id2)
    as (token & Hissue & Hdenied & _).
  - discriminate.
  - vm_compute. reflexivity.
  - reflexivity.
  - lia.
  - destruct Hdenied as (r & Hr & Hrun & _).
    + vm_compute. discriminate.
    + exists token, r. split; [exact Hissue|]. split; [exact Hrun | exact Hr].
Defined.

(** * Wishlist and reviews *)

Lemma find_all_app (p : document → bool) (c l : list document) :
  find_all p (c ++ l)%list = (find_all p c ++ find_all p l)%list.
Proof. apply List.filter_app. Qed.

Lemma db_insertOne_fresh (k : collection) (doc : document) (st : store) :
  doc !! "_id" = None →
  db_insertOne k doc st
  = (Return {| insertedId := VId (fresh_oid (docs k st)) |},
     set_docs k (docs k st ++ [<["_id" := VId (fresh_oid (docs k st))]> doc]) st).
Proof.
  intros Hid. unfold db_insertOne, on_collection, insertOne, own_id.
  by rewrite Hid.
Qed.

(** X20.  The wishlist enforces no uniqueness: adding the same item
    twice stores two entries that differ in their [_id] only, and the
    owner's wishlist then lists both after what it listed before. *)
Theorem wishlist_keeps_duplicates (wishlistItem : document) (e : string)
    (st : store) :
  wishlistItem !! "_id" = None →
  wishlistItem !! "userEmail" = Some (VStr e) →
  ∃ r1 r2 st1 st2 v1 v2 before,
    post_wishlist wishlistItem st = (Return r1, st1) ∧ status r1 = 201
    ∧ post_wishlist wishlistItem st1 = (Return r2, st2) ∧ status r2 = 201
    ∧ get_wishlist (Some e) st = (Return (send (Docs before)), st)
    ∧ get_wishlist (Some e) st2
      = (Return (send (Docs (before ++ [ <["_id" := v1]> wishlistItem;
                                         <["_id" := v2]> wishlistItem ]))),
         st2)
    ∧ v1 ≠ v2.
Proof.
  intros Hid He.
  set (c := wishlistCollection st).
  set (d1 := <["_id" := VId (fresh_oid c)]> wishlistItem).
  set (c1 := (c ++ [d1])%list).
  set (d2 := <["_id" := VId (fresh_oid c1)]> wishlistItem).
  assert (Hm : ∀ v, by_field "userEmail" (Some (VStr e))
                      (<["_id" := v]> wishlistItem) = true).
  { intros v. apply by_field_present. by rewrite lookup_insert_ne. }
  exists (status_send 201 (Inserted {| insertedId := VId (fresh_oid c) |})),
         (status_send 201 (Inserted {| insertedId := VId (fresh_oid c1) |})),
         (set_docs wishlists c1 st),
         (set_docs wishlists (c1 ++ [d2]) st),
         (VId (fresh_oid c)), (VId (fresh_oid c1)),
         (find_all (by_field "userEmail" (Some (VStr e))) c).
  split.
  { unfold post_wishlist, try_catch, bind.
    by rewrite (db_insertOne_fresh wishlists _ st Hid). }
  split; [done|]. split.
  { unfold post_wishlist, try_catch, bind.
    rewrite (db_insertOne_fresh wishlists _ _ Hid).
    rewrite docs_set_docs. by rewrite set_docs_set_docs. }
  split; [done|]. split; [reflexivity|]. split.
  { unfold get_wishlist, try_catch, bind. rewrite db_find_run.
    rewrite docs_set_docs. unfold c1.
    rewrite !find_all_app. unfold find_all at 2 3. simpl.
    unfold d2, d1. rewrite !Hm. by rewrite <- app_assoc. }
  intros Heq. injection Heq as Heq.
  assert (Hlt : (fresh_oid c < fresh_oid c1)%N).
  { apply (fresh_oid_above c1 d1); [unfold c1; set_solver|].
    unfold d1. by rewrite lookup_insert_eq. }
  lia.
Qed.

Lemma wishlist_keeps_duplicates_witness :
  ∃ st2 listing,
    snd (post_wishlist {[ "userEmail" := VStr "bob@mail"; "propertyId" := VStr "P" ]}
           (snd (post_wishlist
                   {[ "userEmail" := VStr "bob@mail"; "propertyId" := VStr "P" ]}
                   market))) = st2
    ∧ get_wishlist (Some "bob@mail") st2 = (Return (send (Docs listing)), st2)
    ∧ length listing = 2.
Proof.
  destruct (wishlist_keeps_duplicates
              {[ "userEmail" := VStr "bob@mail"; "propertyId" := VStr "P" ]}
              "bob@mail" market)
    as (r1 & r2 & st1 & st2 & v1 & v2 & before & H1 & _ & H2 & _ & Hb & Ha & _).
  - vm_compute. reflexivity.
  - vm_compute. reflexivity.
  - exists st2. eexists. rewrite H1. simpl. rewrite H2. simpl.
    split; [reflexivity|]. split; [exact Ha|].
    assert (before = []) as ->.
    { vm_compute in Hb. by injection Hb as <-. }
    reflexivity.
Defined.

(** X21.  Review round trip: a review posted for a property is listed
    by [GET /reviews/:propertyId], whose listing is exactly the stored
    reviews of that property, the later [date] first. *)
Theorem posted_review_is_listed (review : document) (pid : string)
    (st : store) :
  review !! "_id" = None → review !! "propertyId" = Some (VStr pid) →
  ∃ v st' listing,
    post_review review st
      = (Return (status_send 201 (Inserted {| insertedId := v |})), st')
    ∧ get_reviews_of pid st' = (Return (send (Docs listing)), st')
    ∧ <["_id" := v]> review ∈ listing
    ∧ listing ≡ₚ filter (λ d, d !! "propertyId" = Some (VStr pid))
                   (reviewsCollection st')
    ∧ StronglySorted
        (λ a b, value_le (sort_key "date" b) (sort_key "date" a)) listing.
Proof.
  intros Hid Hp. eexists _, _, _. split.
  { unfold post_review, bind.
    by rewrite (db_insertOne_fresh reviews _ st Hid). }
  split; [reflexivity|]. cbn [docs set_docs reviewsCollection]. split.
  { apply elem_sort_docs, find_all_elem. split; [set_solver|].
    apply by_field_present. by rewrite lookup_insert_ne. }
  split.
  { rewrite sort_docs_perm, find_all_stdpp.
    apply Permutation_refl', list_filter_iff. intros d.
    apply by_field_string. }
  apply descending_sorted.
Qed.

Lemma posted_review_is_listed_witness :
  ∃ v st' listing,
    post_review {[ "propertyId" := VStr "P"; "date" := VNum 20250101;
                   "reviewerEmail" := VStr "bob@mail" ]} market
      = (Return (status_send 201 (Inserted {| insertedId := v |})), st')
    ∧ get_reviews_of "P" st' = (Return (send (Docs listing)), st')
    ∧ length listing = 1.
Proof.
  destruct (posted_review_is_listed
              {[ "propertyId" := VStr "P"; "date" := VNum 20250101;
                 "reviewerEmail" := VStr "bob@mail" ]} "P" market)
    as (v & st' & listing & Hpost & Hget & _ & Hperm & _).
  - vm_compute. reflexivity.
  - vm_compute. reflexivity.
  - exists v, st', listing. split; [exact Hpost|]. split; [exact Hget|].
    rewrite (Permutation_length Hperm).
    vm_compute in Hpost. injection Hpost as _ <-. vm_compute. reflexivity.
Defined.

Lemma by_field_absent (field : string) (d : document) :
  by_field field None d = true
  ↔ d !! field = None ∨ d !! field = Some VNull.
Proof.
  rewrite by_field_spec. simpl. destruct (d !! field) as [[]|]; simpl;
    split; intros; try done; try (by left); try (by right);
    destruct H as [?|?]; congruence.
Qed.

(** X22.  The email parameter of the listings.  [GET /my-properties],
    [GET /bought-properties] and [GET /offers] answer 400 when their
    parameter is absent or empty.  [GET /wishlist] and
    [GET /my-reviews] do not check theirs: without it they answer with
    the entries that have no owner, those whose owner field is absent
    or [null]. *)
Theorem email_parameter_checks (st : store) (q : option string) :
  (given q = false →
   (∃ r, get_my_properties q st = (Return r, st) ∧ BadRequest r)
   ∧ (∃ r, get_bought_properties q st = (Return r, st) ∧ BadRequest r)
   ∧ (∃ r, get_offers q st = (Return r, st) ∧ BadRequest r))
  ∧ (∃ listing,
       get_wishlist None st = (Return (send (Docs listing)), st)
       ∧ ∀ d, d ∈ listing ↔
              d ∈ wishlistCollection st
              ∧ (d !! "userEmail" = None ∨ d !! "userEmail" = Some VNull))
  ∧ (∃ listing,
       get_my_reviews None st = (Return (send (Docs listing)), st)
       ∧ ∀ d, d ∈ listing ↔
              d ∈ reviewsCollection st
              ∧ (d !! "reviewerEmail" = None
                 ∨ d !! "reviewerEmail" = Some VNull)).
Proof.
  split; [|split].
  - intros Hq.
    unfold get_my_properties, get_bought_properties, get_offers, try_catch,
      bind. rewrite Hq. simpl.
    repeat split; eexists; split; reflexivity.
  - eexists. split; [reflexivity|]. intros d.
    by rewrite find_all_elem, by_field_absent.
  - eexists. split; [reflexivity|]. intros d.
    by rewrite find_all_elem, by_field_absent.
Qed.

Lemma email_parameter_checks_witness :
  ∃ r, get_offers (Some "") market = (Return r, market) ∧ status r = 400.
Proof.
  destruct (email_parameter_checks market (Some "")) as [H400 _].
  destruct H400 as (_ & _ & r & Hrun & Hr); [reflexivity|].
  exists r. split; [exact Hrun | exact Hr].
Defined.

(** * Looking a document up *)

(** X23.  The three lookups by id.  With the id of a stored document
    each answers with that document; with a well-formed id that no
    document of its collection has it answers 404; with an id the
    [ObjectId] constructor refuses, the property and offer lookups
    answer 500 and the wishlist lookup, which has no [try]/[catch], lets
    the exception leave the handler.  The store is never changed. *)
Theorem lookup_by_id (ep : lookup_endpoint) (st : store) (id : string) :
  match ObjectId id with
  | Return i =>
      (∀ d, unique_ids (docs (lookup_target ep) st) →
            d ∈ docs (lookup_target ep) st → d !! "_id" = Some (VId i) →
            lookup_handler ep id st = (Return (send (Doc d)), st))
      ∧ ((∀ d, d ∈ docs (lookup_target ep) st → d !! "_id" ≠ Some (VId i)) →
         ∃ r, lookup_handler ep id st = (Return r, st) ∧ NotFound r)
  | Throw e =>
      if decide (ep = LookupWishlistItem)
      then lookup_handler ep id st = (Throw e, st)
      else ∃ r, lookup_handler ep id st = (Return r, st) ∧ InternalError r
  end.
Proof.
  destruct (ObjectId id) as [i|e] eqn:Hid.
  - split.
    + intros d Hu Hd Hi.
      destruct ep; simpl in *;
        unfold get_property, get_offer, get_wishlist_item, try_catch, bind,
          lift, db_findOne; rewrite Hid; cbn [docs];
        by rewrite (findOne_by_id _ d i).
    + intros Hno.
      assert (Hnone : findOne (by_id i) (docs (lookup_target ep) st) = None).
      { apply findOne_none. intros d Hd. apply not_true_is_false.
        intros Hb. apply by_id_spec in Hb. by apply (Hno d Hd). }
      destruct ep; simpl in *;
        unfold get_property, get_offer, get_wishlist_item, try_catch, bind,
          lift, db_findOne; rewrite Hid; cbn [docs]; rewrite Hnone;
        eexists; split; reflexivity.
  - destruct ep; simpl;
      unfold get_property, get_offer, get_wishlist_item, try_catch, bind,
        lift; rewrite Hid; simpl;
      try (eexists; split; reflexivity); reflexivity.
Qed.
